(** * discord-paginationembed: the two pagination modes, [Embeds] and [FieldsEmbed]

    A shallow embedding of [src/Embeds.ts] and [src/FieldsEmbed.ts].

    - [JS] holds the fragment of the JavaScript run time that the two classes
      rely on: numbers, [typeof], truthiness, [Array.prototype.slice],
      indexing, [join] and template strings.
    - [Effects] is the state-and-exception monad in which methods run, and the
      log of calls made to the transport (messages sent and edited, signals
      emitted).
    - [FieldsEmbed] and [Embeds] follow the two classes method by method.
    - [Router] is the reaction router of the base class, which is not among
      the sources; it follows the written specification.
*)

From Stdlib Require Import ZArith QArith Qround Bool String Ascii List Lia.
From Stdlib Require Import DecimalString.
From stdpp Require Import base option list strings gmap.
Import ListNotations.

Local Open Scope Z_scope.
Local Open Scope string_scope.
Local Open Scope list_scope.

(* ------------------------------------------------------------------------- *)
(** ** The JavaScript fragment *)

Module JS.

(** A JavaScript number: NaN, the two infinities, negative zero, and the
    finite values as exact rationals ([Fin q] with [q == 0] is the positive
    zero).  The operations below carry the signs of zeros and infinities as
    IEEE 754 does ([n / 0] is [Infinity], [n / -0] is [-Infinity], and
    [Math.ceil] of a number between -1 and 0 is [-0]) and compute finite
    results exactly.  That is what double arithmetic gives on the operands
    the two classes meet when the counters are integers: on array lengths
    and page numbers (integers below 2^32) the subtractions, products and
    sums are exact, and the one rounded quotient, inside
    [Math.ceil (n / e)] with [e] an integer, is off by less than [1 / e]
    and so never crosses an integer.  On operands that are not integers a
    double rounds where the rational does not ([7 / 0.7] is
    [10.000000000000002]); the statements of this development are made for
    integer operands. *)
Inductive number : Type :=
| NaN
| Inf (negative : bool)
| NegZero
| Fin (q : Q).

Definition of_Z (z : Z) : number := Fin (inject_Z z).
Definition of_nat (n : nat) : number := of_Z (Z.of_nat n).

Definition Qneg_b (q : Q) : bool := Z.ltb (Qnum q) 0.
Definition Qzero_b (q : Q) : bool := Z.eqb (Qnum q) 0.

(** The zero of the given sign *)
Definition signed_zero (negative : bool) : number :=
  if negative then NegZero else Fin 0.


Definition num_opp (a : number) : number :=
  match a with
  | NaN => NaN
  | Inf s => Inf (negb s)
  | NegZero => Fin 0
  | Fin q => if Qzero_b q then NegZero else Fin (- q)
  end.

Definition num_add (a b : number) : number :=
  match a, b with
  | NaN, _ | _, NaN => NaN
  | Inf s, Inf t => if Bool.eqb s t then Inf s else NaN
  | Inf s, (NegZero | Fin _) => Inf s
  | (NegZero | Fin _), Inf t => Inf t
  | NegZero, NegZero => NegZero
  | NegZero, Fin y => Fin y
  | Fin x, NegZero => Fin x
  | Fin x, Fin y => Fin (x + y)
  end.

Definition num_sub (a b : number) : number := num_add a (num_opp b).

Definition num_mul (a b : number) : number :=
  match a, b with
  | NaN, _ | _, NaN => NaN
  | Inf s, Inf t => Inf (xorb s t)
  | Inf _, NegZero | NegZero, Inf _ => NaN
  | Inf s, Fin y => if Qzero_b y then NaN else Inf (xorb s (Qneg_b y))
  | Fin x, Inf t => if Qzero_b x then NaN else Inf (xorb (Qneg_b x) t)
  | NegZero, NegZero => Fin 0
  | NegZero, Fin y => signed_zero (negb (Qneg_b y))
  | Fin x, NegZero => signed_zero (negb (Qneg_b x))
  | Fin x, Fin y =>
      if Qzero_b x || Qzero_b y then signed_zero (xorb (Qneg_b x) (Qneg_b y))
      else Fin (x * y)
  end.

Definition num_div (a b : number) : number :=
  match a, b with
  | NaN, _ | _, NaN => NaN
  | Inf _, Inf _ => NaN
  | Inf s, NegZero => Inf (negb s)
  | Inf s, Fin y => Inf (xorb s (Qneg_b y))
  | NegZero, Inf t => signed_zero (negb t)
  | Fin x, Inf t => signed_zero (xorb (Qneg_b x) t)
  | NegZero, NegZero => NaN
  | NegZero, Fin y => if Qzero_b y then NaN else signed_zero (negb (Qneg_b y))
  | Fin x, NegZero => if Qzero_b x then NaN else Inf (negb (Qneg_b x))
  | Fin x, Fin y =>
      if Qzero_b y then (if Qzero_b x then NaN else Inf (Qneg_b x))
      else if Qzero_b x then signed_zero (Qneg_b y)
      else Fin (x / y)
  end.

(** [Math.ceil]: a number between -1 and 0 is rounded to the negative
    zero. *)
Definition Math_ceil (a : number) : number :=
  match a with
  | Fin q =>
      if Qneg_b q && negb (Qle_bool q (- (1))) then NegZero
      else of_Z (Qceiling q)
  | other => other
  end.

(** [a === b] on numbers; the two zeros are equal *)
Definition num_eqb (a b : number) : bool :=
  match a, b with
  | Fin x, Fin y => Qeq_bool x y
  | NegZero, NegZero => true
  | NegZero, Fin q | Fin q, NegZero => Qzero_b q
  | Inf s, Inf t => Bool.eqb s t
  | _, _ => false
  end.

(** [a <= b] on numbers; any comparison with NaN is false *)
Definition num_leb (a b : number) : bool :=
  match a, b with
  | NaN, _ | _, NaN => false
  | Inf s, Inf t => orb s (negb t)
  | Inf s, (NegZero | Fin _) => s
  | (NegZero | Fin _), Inf t => negb t
  | NegZero, NegZero => true
  | NegZero, Fin y => Qle_bool 0 y
  | Fin x, NegZero => Qle_bool x 0
  | Fin x, Fin y => Qle_bool x y
  end.

(** [a < b] on numbers *)
Definition num_ltb (a b : number) : bool :=
  match a, b with
  | NaN, _ | _, NaN => false
  | Inf s, Inf t => andb s (negb t)
  | Inf s, (NegZero | Fin _) => s
  | (NegZero | Fin _), Inf t => negb t
  | NegZero, NegZero => false
  | NegZero, Fin y => negb (Qle_bool y 0)
  | Fin x, NegZero => negb (Qle_bool 0 x)
  | Fin x, Fin y => negb (Qle_bool y x)
  end.

(** Whether a number is an integer, and which one. *)
Definition as_integer (a : number) : option Z :=
  match a with
  | NegZero => Some 0
  | Fin q => if Qeq_bool q (inject_Z (Qfloor q)) then Some (Qfloor q) else None
  | _ => None
  end.

(** Truncation towards zero *)
Definition truncate (q : Q) : Z := if Qneg_b q then Qceiling q else Qfloor q.

(** The abstract operation ToIntegerOrInfinity, as far as [slice] needs it:
    [None] stands for -Infinity, [Some (inl z)] for the integer [z] and
    [Some (inr tt)] for +Infinity. *)
Definition ToIntegerOrInfinity (a : number) : option (Z + unit) :=
  match a with
  | NaN | NegZero => Some (inl 0)
  | Inf true => None
  | Inf false => Some (inr tt)
  | Fin q => Some (inl (truncate q))
  end.

(** The clamping of a relative index of [slice] into [0 .. len]. *)
Definition clamp_index (len : Z) (rel : option (Z + unit)) : Z :=
  match rel with
  | None => 0
  | Some (inr _) => len
  | Some (inl z) => if Z.ltb z 0 then Z.max (len + z) 0 else Z.min z len
  end.

(** [xs.slice(start, end)] with both arguments numbers *)
Definition slice {A : Type} (xs : list A) (start stop : number) : list A :=
  let len := Z.of_nat (List.length xs) in
  let k := clamp_index len (ToIntegerOrInfinity start) in
  let final := clamp_index len (ToIntegerOrInfinity stop) in
  firstn (Z.to_nat (Z.max (final - k) 0)) (skipn (Z.to_nat k) xs).

(** [xs[i]] for a number [i]: an own element for an integer index inside
    the array, [undefined] (here [None]) otherwise. *)
Definition index {A : Type} (xs : list A) (i : number) : option A :=
  match as_integer i with
  | Some z => if Z.ltb z 0 then None else xs !! Z.to_nat z
  | None => None
  end.

(** JavaScript values.  [F] is what a function value carries: the function
    itself where the program calls it, [unit] where it is only passed
    around. *)
Inductive value (F : Type) : Type :=
| VUndefined
| VNull
| VBool (b : bool)
| VNumber (n : number)
| VString (s : string)
| VObject (id : nat)
| VFunction (f : F).

Arguments VUndefined {F}.
Arguments VNull {F}.
Arguments VBool {F} b.
Arguments VNumber {F} n.
Arguments VString {F} s.
Arguments VObject {F} id.
Arguments VFunction {F} f.

Definition plain : Type := value unit.

Inductive type_tag : Type :=
| TUndefined | TObject | TBoolean | TNumber | TString | TFunction.

Definition typeof {F : Type} (v : value F) : type_tag :=
  match v with
  | VUndefined => TUndefined
  | VNull => TObject
  | VBool _ => TBoolean
  | VNumber _ => TNumber
  | VString _ => TString
  | VObject _ => TObject
  | VFunction _ => TFunction
  end.

Definition is_function {F : Type} (v : value F) : bool :=
  match typeof v with TFunction => true | _ => false end.

Definition is_number {F : Type} (v : value F) : bool :=
  match typeof v with TNumber => true | _ => false end.

(** A number value that is an integer above zero *)
Definition positive_integer {F : Type} (v : value F) : bool :=
  match v with
  | VNumber n => match as_integer n with Some z => Z.ltb 0 z | None => false end
  | _ => false
  end.

(** ToBoolean: what [!v] tests *)
Definition truthy {F : Type} (v : value F) : bool :=
  match v with
  | VUndefined | VNull => false
  | VBool b => b
  | VNumber (NaN | NegZero) => false
  | VNumber (Inf _) => true
  | VNumber (Fin q) => negb (Qzero_b q)
  | VString s => negb (String.eqb s "")
  | VObject _ | VFunction _ => true
  end.

End JS.

(* ------------------------------------------------------------------------- *)
(** ** Strings produced by the run time *)

Module Render.
Import JS.

(** What the host prints for values whose text the two classes never
    inspect: numbers that are not integers below 2^53 in size (shortest
    round-trip decimal, exponent notation), objects and functions. *)
Class Host : Type := {
  fraction_text : Q -> string;
  object_text : nat -> string;
  function_text : string
}.

Definition Z_text (z : Z) : string := NilZero.string_of_int (Z.to_int z).

(** ToString on numbers, as a template literal applies it.  An integer
    below 2^53 in size prints all its digits; above, a double prints the
    shortest digits that read back as the same double, padded with zeros,
    which are not the digits of the integer. *)
Definition number_text `{Host} (a : number) : string :=
  match a with
  | NaN => "NaN"
  | Inf false => "Infinity"
  | Inf true => "-Infinity"
  | NegZero => "0"
  | Fin q =>
      match as_integer a with
      | Some z => if Z.ltb (Z.abs z) (2 ^ 53) then Z_text z else fraction_text q
      | None => fraction_text q
      end
  end.

(** ToString on values *)
Definition to_text `{Host} {F : Type} (v : value F) : string :=
  match v with
  | VUndefined => "undefined"
  | VNull => "null"
  | VBool true => "true"
  | VBool false => "false"
  | VNumber n => number_text n
  | VString s => s
  | VObject id => object_text id
  | VFunction _ => function_text
  end.

(** One element of [Array.prototype.join]: [undefined] and [null] print as
    the empty string. *)
Definition join_item `{Host} {F : Type} (v : value F) : string :=
  match v with
  | VUndefined | VNull => ""
  | other => to_text other
  end.

(** [xs.join(sep)] *)
Fixpoint join `{Host} {F : Type} (sep : string) (xs : list (value F)) : string :=
  match xs with
  | [] => ""
  | [x] => join_item x
  | x :: rest => join_item x +:+ sep +:+ join sep rest
  end.

Definition newline : string := String (ascii_of_nat 10) EmptyString.

(** The page indicator shared by both modes:
    [pageIndicator ? (pages === 1 ? null : `Page ${page} of ${pages}`) : null].
    [None] stands for the absent content ([null] in [Embeds], [undefined] in
    [FieldsEmbed]). *)
Definition shouldIndicate `{Host} (pageIndicator : bool) (page pages : number)
  : option string :=
  if pageIndicator then
    if num_eqb pages (of_Z 1) then None
    else Some ("Page " +:+ number_text page +:+ " of " +:+ number_text pages)
  else None.

End Render.

(* ------------------------------------------------------------------------- *)
(** ** Methods as state transformers that may throw *)

Module Effects.

Inductive error : Type :=
| TypeError (msg : string)
| RangeError (msg : string)
| Error (msg : string).

Inductive outcome (A : Type) : Type :=
| Return (a : A)
| Throw (e : error).
Arguments Return {A} a.
Arguments Throw {A} e.

Definition returned {A : Type} (o : outcome A) : bool :=
  match o with Return _ => true | Throw _ => false end.

(** A method body over a world [W]: the world it leaves behind is kept also
    when it throws, since mutations made before a [throw] stay. *)
Definition M (W A : Type) : Type := W -> outcome A * W.

Definition ret {W A : Type} (a : A) : M W A := fun w => (Return a, w).
Definition throw {W A : Type} (e : error) : M W A := fun w => (Throw e, w).
Definition bind {W A B : Type} (m : M W A) (k : A -> M W B) : M W B :=
  fun w => match m w with
           | (Return a, w') => k a w'
           | (Throw e, w') => (Throw e, w')
           end.
Definition gets {W A : Type} (f : W -> A) : M W A := fun w => (Return (f w), w).
Definition modify {W : Type} (f : W -> W) : M W unit := fun w => (Return tt, f w).
Definition lift {W A : Type} (o : outcome A) : M W A := fun w => (o, w).

Declare Scope method_scope.
Delimit Scope method_scope with method.
Notation "'let*' x := c1 'in' c2" := (bind c1 (fun x => c2))
  (at level 10, x name, c1 at level 100, c2 at level 200) : method_scope.
Notation "'run' c1 'then' c2" := (bind c1 (fun _ => c2))
  (at level 10, c1 at level 100, c2 at level 200) : method_scope.

(** [for (const x of xs) body(x)] *)
Fixpoint for_of {W B : Type} (xs : list B) (body : B -> M W unit) : M W unit :=
  match xs with
  | [] => ret tt
  | x :: rest => bind (body x) (fun _ => for_of rest body)
  end.

(** A handle on a message held by the transport. *)
Abbreviation Message := nat (only parsing).

(** The calls a method makes on its collaborators, oldest first.  [R] is
    what is handed over as [{ embed }]. *)
Inductive call (R : Type) : Type :=
| Sent (content : option string) (embed : R)
| Edited (m : Message) (content : option string) (embed : R)
| Emitted (signal : string).
Arguments Sent {R} content embed.
Arguments Edited {R} m content embed.
Arguments Emitted {R} signal.

(** The text that accompanies the embed in a call, if any. *)
Definition content_of {R : Type} (c : call R) : option string :=
  match c with
  | Sent content _ => content
  | Edited _ content _ => content
  | Emitted _ => None
  end.

(** How the transport answers: [channel.send] resolves to a message or
    rejects, [message.edit] resolves or rejects.  The answer may depend on
    everything that was asked before. *)
Class Transport (R : Type) : Type := {
  send_answer : list (call R) -> option string -> R -> outcome Message;
  edit_answer : list (call R) -> Message -> option string -> R -> outcome unit
}.

End Effects.

(* ------------------------------------------------------------------------- *)
(** ** What the two classes inherit from [PaginationEmbed] *)

Module Base.
Import JS Effects.

(** The inherited members that [Embeds] and [FieldsEmbed] read or write. *)
Record session (A : Type) : Type := mkSession {
  array : list A;
  page : number;
  pages : number;
  pageIndicator : bool;
  message : option Message;       (* clientAssets.message *)
  startListeners : nat            (* listenerCount('start') *)
}.
Arguments mkSession {A}.
Arguments array {A}.
Arguments page {A}.
Arguments pages {A}.
Arguments pageIndicator {A}.
Arguments message {A}.
Arguments startListeners {A}.

Definition with_array {A : Type} (xs : list A) (s : session A) : session A :=
  mkSession xs (page s) (pages s) (pageIndicator s) (message s) (startListeners s).
Definition with_pages {A : Type} (n : number) (s : session A) : session A :=
  mkSession (array s) (page s) n (pageIndicator s) (message s) (startListeners s).
Definition with_message {A : Type} (m : option Message) (s : session A) : session A :=
  mkSession (array s) (page s) (pages s) (pageIndicator s) m (startListeners s).
(** [this.page = p] *)
Definition with_page {A : Type} (p : number) (s : session A) : session A :=
  mkSession (array s) p (pages s) (pageIndicator s) (message s) (startListeners s).

(** The inherited members together with the calls made so far. *)
Record world (A R : Type) : Type := mkWorld {
  self : session A;
  calls : list (call R)
}.
Arguments mkWorld {A R}.
Arguments self {A R}.
Arguments calls {A R}.

(** [PaginationEmbed._verify], whose body is not among the sources: some
    method over the inherited members. *)
Class Verify (A R : Type) : Type := {
  _verify : M (world A R) unit
}.

(** [PaginationEmbed._loadList], reached through [super._loadList]: it
    draws the navigation and runs the session, and so may call back into the
    subclass; some method over the whole world [W] of the subclass. *)
Class Navigation (W : Type) : Type := {
  super_loadList : bool -> M W unit
}.

(** An inherited [_loadList] that returns at once.  Run with it, a method
    that ends in [super._loadList] stops in the world it hands over. *)
Definition handover (W : Type) : Navigation W :=
  {| super_loadList := fun _ w => (Return tt, w) |}.

End Base.

(* ------------------------------------------------------------------------- *)
(** ** [FieldsEmbed]: elements grouped into the fields of one embed *)

Module FieldsEmbed.
Import JS Render Effects.

Section Class_.
Context {Element : Type}.

(** A field of the template: its value is text, or a function from an
    element to what is shown for it. *)
Record Field : Type := mkField {
  name : string;
  value : JS.value (Element -> plain);
  inline : bool
}.

(** Arrays of fields live in a store, so that two embeds may hold the
    same array. *)
Abbreviation ref := nat (only parsing).
Abbreviation store := (list (list Field)) (only parsing).

(** [RichEmbed] of discord.js, as far as it is used. *)
Record RichEmbed : Type := mkEmbed {
  title : option string;
  description : option string;
  url : option string;
  color : option Z;
  fields : ref
}.

Definition with_fields (r : ref) (e : RichEmbed) : RichEmbed :=
  mkEmbed (title e) (description e) (url e) (color e) r.

(** An embed as the transport receives it. *)
Record drawn : Type := mkDrawn {
  drawn_title : option string;
  drawn_description : option string;
  drawn_url : option string;
  drawn_color : option Z;
  drawn_fields : list Field
}.

Record session : Type := mkSession {
  super : Base.session Element;
  elementsPerPage : number;
  embed : RichEmbed
}.

Record world : Type := mkWorld {
  this : session;
  heap : store;
  calls : list (call drawn)
}.

Definition with_super (b : Base.session Element) (s : session) : session :=
  mkSession b (elementsPerPage s) (embed s).
Definition with_elementsPerPage (n : number) (s : session) : session :=
  mkSession (super s) n (embed s).
Definition with_embed (e : RichEmbed) (s : session) : session :=
  mkSession (super s) (elementsPerPage s) e.

Definition with_this (s : session) (w : world) : world :=
  mkWorld s (heap w) (calls w).
Definition with_heap (h : store) (w : world) : world :=
  mkWorld (this w) h (calls w).
Definition with_calls (cs : list (call drawn)) (w : world) : world :=
  mkWorld (this w) (heap w) cs.

(** The methods of discord.js that the class calls.  [addField] validates
    and appends one field, whose value it has turned into text;
    [new RichEmbed(data)] keeps [data.fields] or copies it. *)
Class RichEmbedLib : Type := {
  addField : string -> JS.value (Element -> plain) -> bool ->
             list Field -> outcome (list Field);
  addField_appends : forall n v i fs fs',
    addField n v i fs = Return fs' ->
    exists f, fs' = fs ++ [f] /\ is_function (value f) = false;
  shares_fields : bool
}.

Context `{Host} `{RichEmbedLib} `{!Transport drawn}.
Context `{!Base.Verify Element drawn} `{!Base.Navigation world}.

(** *** The store *)

Definition deref (h : store) (r : ref) : list Field := default [] (h !! r).

Definition read (r : ref) : M world (list Field) :=
  gets (fun w => deref (heap w) r).

Definition write (r : ref) (fs : list Field) : M world unit :=
  modify (fun w => with_heap (<[r := fs]> (heap w)) w).

(** A new array literal *)
Definition alloc (fs : list Field) : M world ref :=
  fun w => (Return (List.length (heap w)), with_heap (heap w ++ [fs]) w).

(** [e.addField(n, v, i)] *)
Definition embed_addField (e : RichEmbed) (n : string)
    (v : JS.value (Element -> plain)) (i : bool) : M world unit :=
  (let* fs := read (fields e) in
   let* fs' := lift (addField n v i fs) in
   write (fields e) fs')%method.

(** [new RichEmbed(data)] *)
Definition new_RichEmbed (data : RichEmbed) : M world RichEmbed :=
  (if shares_fields then ret data
   else
     let* fs := read (fields data) in
     let* r := alloc fs in
     ret (with_fields r data))%method.

Definition draw (h : store) (e : RichEmbed) : drawn :=
  mkDrawn (title e) (description e) (url e) (color e) (deref h (fields e)).

(** *** The class *)

(** [constructor ()], after [super()] has left [b] *)
Definition constructor (b : Base.session Element) (h : store) : world :=
  mkWorld (mkSession b (of_Z 10) (mkEmbed None None None None (List.length h)))
          (h ++ [[]]) [].

(** [get elementList ()] *)
Definition elementList (s : session) : list Element :=
  let begin := num_mul (num_sub (Base.page (super s)) (of_Z 1)) (elementsPerPage s) in
  let end_ := num_add begin (elementsPerPage s) in
  slice (Base.array (super s)) begin end_.

(** [formatField (name, value, inline = true)] *)
Definition formatField (n : string) (v : JS.value (Element -> plain))
    (i : option bool) : M world unit :=
  (if negb (is_function v)
   then throw (TypeError "formatField() value parameter only takes a function.")
   else
     let* e := gets (fun w => embed (this w)) in
     let* fs := read (fields e) in
     write (fields e) (fs ++ [mkField n v (default true i)]))%method.

(** [setElementsPerPage (max)] *)
Definition setElementsPerPage (max : plain) : M world unit :=
  match max with
  | VNumber n => modify (fun w => with_this (with_elementsPerPage n (this w)) w)
  | _ => throw (TypeError "setElementsPerPage() only accepts number type.")
  end.

(** The value [_drawList] hands to [addField] for one field. *)
Definition drawn_value (s : session) (f : Field) : JS.value (Element -> plain) :=
  match value f with
  | VFunction g => VString (join newline (map g (elementList s)))
  | other => other
  end.

(** [_drawList ()] *)
Definition _drawList : M world RichEmbed :=
  (let* s := gets this in
   let* copy := new_RichEmbed (embed s) in
   let* r := alloc [] in
   let embed' := with_fields r copy in
   let* template := read (fields (embed s)) in
   run for_of template (fun field =>
         embed_addField embed' (name field) (drawn_value s field) (inline field))
   then ret embed')%method.

Definition emit (signal : string) : M world unit :=
  modify (fun w => with_calls (calls w ++ [Emitted signal]) w).

(** [channel.send(content, { embed })] *)
Definition channel_send (content : option string) (e : RichEmbed) : M world Message :=
  fun w =>
    let d := draw (heap w) e in
    (send_answer (calls w) content d, with_calls (calls w ++ [Sent content d]) w).

(** [m.edit(content, { embed })] *)
Definition message_edit (m : Message) (content : option string) (e : RichEmbed)
  : M world unit :=
  fun w =>
    let d := draw (heap w) e in
    (edit_answer (calls w) m content d, with_calls (calls w ++ [Edited m content d]) w).

(** [_loadList (callNavigation = true)] *)
Definition _loadList (callNavigation : bool) : M world unit :=
  (let* e := _drawList in
   let* s := gets this in
   let content := shouldIndicate (Base.pageIndicator (super s))
                    (Base.page (super s)) (Base.pages (super s)) in
   run match Base.message (super s) with
       | Some m => message_edit m content e
       | None =>
           let* m := channel_send content e in
           modify (fun w => with_this
             (with_super (Base.with_message (Some m) (super (this w))) (this w)) w)
       end
   then Base.super_loadList callNavigation)%method.

(** An inherited method, run on the inherited part of the world. *)
Definition inherited {A : Type} (m : M (Base.world Element drawn) A) : M world A :=
  fun w =>
    match m (Base.mkWorld (super (this w)) (calls w)) with
    | (o, b) => (o, mkWorld (with_super (Base.self b) (this w)) (heap w) (Base.calls b))
    end.

(** The first statement of [build]. *)
Definition count_pages (s : session) : number :=
  Math_ceil (num_div (of_nat (List.length (Base.array (super s)))) (elementsPerPage s)).

Definition has_function (f : Field) : bool := is_function (value f).

(** [build] from [await this._verify()] on. *)
Definition build_continue : M world unit :=
  (run inherited Base._verify then
   let* old := gets (fun w => embed (this w)) in
   let* fields_ := read (fields old) in
   let* r := alloc [] in
   run modify (fun w => with_this (with_embed (with_fields r (embed (this w))) (this w)) w) then
   run for_of fields_ (fun field =>
         if has_function field
         then formatField (name field) (value field) (Some (inline field))
         else
           let* e := gets (fun w => embed (this w)) in
           embed_addField e (name field) (value field) (inline field))
   then
   let* e := gets (fun w => embed (this w)) in
   let* now := read (fields e) in
   let hasPaginateField := List.length (List.filter has_function now) in
   if Nat.eqb hasPaginateField 0
   then throw (Error
     "Cannot invoke FieldsEmbed class without at least one formatted field to paginate.")
   else
     let* listeners := gets (fun w => Base.startListeners (super (this w))) in
     run (if Nat.eqb listeners 0 then ret tt else emit "start") then
     _loadList true)%method.

(** [build ()] *)
Definition build : M world unit :=
  (run modify (fun w => with_this
         (with_super (Base.with_pages (count_pages (this w)) (super (this w))) (this w)) w)
   then build_continue)%method.

(** The embed of the session holds an array that exists. *)
Definition wf (w : world) : Prop := (fields (embed (this w)) < List.length (heap w))%nat.

(** What a loop of [addField] calls leaves in the array it fills, and how
    it ends: the loop of [_drawList], and that of [build] on fields that hold
    no function, seen from the array. *)
Fixpoint add_all (g : Field -> JS.value (Element -> plain)) (fs acc : list Field)
  : outcome unit * list Field :=
  match fs with
  | [] => (Return tt, acc)
  | f :: rest =>
      match addField (name f) (g f) (inline f) acc with
      | Return acc' => add_all g rest acc'
      | Throw e => (Throw e, acc)
      end
  end.

(** What the loop of [build] leaves in the array it fills, and how it
    ends: formatted fields are pushed as they are, the others go through
    [addField]. *)
Fixpoint rebuild (fs acc : list Field) : outcome unit * list Field :=
  match fs with
  | [] => (Return tt, acc)
  | f :: rest =>
      if has_function f then rebuild rest (acc ++ [mkField (name f) (value f) (inline f)])
      else
        match addField (name f) (value f) (inline f) acc with
        | Return acc' => rebuild rest acc'
        | Throw e => (Throw e, acc)
        end
  end.

(** The world once [build] has set [pages]. *)
Definition counted (w : world) : world :=
  with_this (with_super (Base.with_pages (count_pages (this w)) (super (this w))) (this w)) w.

(** The world in which [build] reaches [_loadList], when it does: after
    [_verify], with the template rebuilt in a new array and [start]
    emitted if anyone listens. *)
Definition prepared (w : world) : world :=
  let w2 := snd (inherited Base._verify (counted w)) in
  let template := deref (heap w2) (fields (embed (this w2))) in
  let w3 := with_heap (heap w2 ++ [snd (rebuild template [])])
              (with_this (with_embed (with_fields (List.length (heap w2)) (embed (this w2)))
                            (this w2)) w2) in
  if Nat.eqb (Base.startListeners (super (this w2))) 0 then w3
  else with_calls (calls w3 ++ [Emitted "start"]) w3.

(** The store after [new RichEmbed(this.embed)]. *)
Definition copied (w : world) : list (list Field) :=
  if shares_fields then heap w
  else heap w ++ [deref (heap w) (fields (embed (this w)))].

(** The loop of [_drawList], seen from the array it fills. *)
Definition drawing (w : world) : outcome unit * list Field :=
  add_all (drawn_value (this w)) (deref (heap w) (fields (embed (this w)))) [].

(** The content that [_loadList] passes along with the embed. *)
Definition indicator (s : session) : option string :=
  shouldIndicate (Base.pageIndicator (super s)) (Base.page (super s)) (Base.pages (super s)).

(** The world in which [_loadList] hands over to the inherited
    [_loadList], when it gets that far. *)
Definition rendered (w : world) (e : RichEmbed) : world :=
  let w1 := snd (_drawList w) in
  let d := draw (heap w1) e in
  match Base.message (super (this w)) with
  | Some m => with_calls (calls w ++ [Edited m (indicator (this w)) d]) w1
  | None => with_calls (calls w ++ [Sent (indicator (this w)) d]) w1
  end.

(** How the transport answers the call of [_loadList]: the new message
    when one was sent. *)
Definition answered (w : world) (e : RichEmbed) : outcome (option nat) :=
  let d := draw (heap (snd (_drawList w))) e in
  match Base.message (super (this w)) with
  | Some m =>
      match edit_answer (calls w) m (indicator (this w)) d with
      | Return _ => Return None
      | Throw err => Throw err
      end
  | None =>
      match send_answer (calls w) (indicator (this w)) d with
      | Return m => Return (Some m)
      | Throw err => Throw err
      end
  end.

(** [this.clientAssets.message = ...] after a message was sent *)
Definition remembered (m : option nat) (w : world) : world :=
  match m with
  | Some m' =>
      with_this (with_super (Base.with_message (Some m') (super (this w))) (this w)) w
  | None => w
  end.

(** The session turned to page [p]: [this.page = p]. *)
Definition on_page (p : number) (s : session) : session :=
  with_super (Base.with_page p (super s)) s.

(** The fields of the template, [this.embed.fields]. *)
Definition template (w : world) : list Field :=
  deref (heap w) (fields (embed (this w))).

End Class_.

Arguments Field Element : clear implicits.
Arguments drawn Element : clear implicits.
Arguments session Element : clear implicits.
Arguments world Element : clear implicits.
Arguments RichEmbedLib Element : clear implicits.

End FieldsEmbed.

(* ------------------------------------------------------------------------- *)
(** ** [Embeds]: one ready-made embed per page *)

Module Embeds.
Import JS Render Effects.

Section Class_.
(** [E] is [MessageEmbed] of discord.js. *)
Context {E : Type}.

(** The methods of [MessageEmbed] that the class forwards to.  An embed is
    an object: [E] is the type of the objects themselves, so that the same
    embed may sit at several indices of the array, and what the objects hold
    is a state of its own, [contents], which a method called on an object
    reads and changes.  A call may throw, and leaves the contents as they
    are at that moment. *)
Class MessageEmbedLib : Type := {
  contents : Type;
  el_addBlankField : bool -> E -> M contents unit;
  el_addField : plain -> plain -> bool -> E -> M contents unit;
  el_setAuthor : plain -> plain -> plain -> E -> M contents unit;
  el_setColor : plain -> E -> M contents unit;
  el_setDescription : plain -> E -> M contents unit;
  el_setFooter : plain -> plain -> E -> M contents unit;
  el_setImage : plain -> E -> M contents unit;
  el_setThumbnail : plain -> E -> M contents unit;
  el_setTimestamp : plain -> E -> M contents unit;
  el_setTitle : plain -> E -> M contents unit;
  el_setURL : plain -> E -> M contents unit;
  el_spliceField : plain -> plain -> plain -> plain -> plain -> E -> M contents unit
}.

Definition world : Type := Base.world E (option E).

Context `{Host} `{MessageEmbedLib} `{!Transport (option E)}.
Context `{!Base.Verify E (option E)} `{!Base.Navigation world}.

Definition with_self (s : Base.session E) (w : world) : world :=
  Base.mkWorld s (Base.calls w).
Definition with_calls (cs : list (call (option E))) (w : world) : world :=
  Base.mkWorld (Base.self w) cs.

(** [get currentEmbed ()] *)
Definition currentEmbed (s : Base.session E) : option E :=
  index (Base.array s) (num_sub (Base.page s) (of_Z 1)).

(** What the setters that reach into the embeds run over: the session and
    the contents of the embed objects. *)
Record state : Type := mkState {
  objects : contents;
  this : world
}.

(** [for (const el of this.array) el.method(...)]: the method is called on
    the objects of the array in order, each call working on the contents as
    the calls before it left them, so an embed that sits at two indices is
    called twice.  The session itself is not written to. *)
Definition for_array (method : E -> M contents unit) : M state unit :=
  fun st =>
    match for_of (Base.array (Base.self (this st))) method (objects st) with
    | (o, h) => (o, mkState h (this st))
    end.

(** [addBlankField (inline = false)] *)
Definition addBlankField (inline : option bool) : M state unit :=
  for_array (el_addBlankField (default false inline)).

(** [addField (name, value, inline = false)] *)
Definition addField (name value : plain) (inline : option bool) : M state unit :=
  if negb (truthy name) && negb (truthy value) then ret tt
  else for_array (el_addField name value (default false inline)).

(** What [setArray] may be given: anything that is not an array, or an
    array whose items are embeds ([inl]) or anything else ([inr]). *)
Inductive argument : Type :=
| NotArray (v : plain)
| AnArray (items : list (E + plain)).

Definition invalid_item (i : nat) : error :=
  TypeError ("(MessageEmbeds[" +:+ Z_text (Z.of_nat i) +:+
             "]) Cannot invoke Embeds class with an invalid MessageEmbed instance.").

(** The loop of [setArray], from index [i] on: the embeds seen, or the
    error for the first item that is not one. *)
Fixpoint check_items (i : nat) (items : list (E + plain)) : outcome (list E) :=
  match items with
  | [] => Return []
  | inl el :: rest =>
      match check_items (S i) rest with
      | Return els => Return (el :: els)
      | Throw e => Throw e
      end
  | inr _ :: _ => Throw (invalid_item i)
  end.

(** [setArray (array)] *)
Definition setArray (array : argument) : M world unit :=
  match array with
  | NotArray _ | AnArray [] =>
      throw (TypeError "Cannot invoke Embeds class without a valid array to paginate.")
  | AnArray items =>
      (let* els := lift (check_items 0 items) in
       modify (fun w => with_self (Base.with_array els (Base.self w)) w))%method
  end.

(** [setAuthor (name, iconURL?, url?)] *)
Definition setAuthor (name iconURL url : plain) : M state unit :=
  if negb (truthy name) then ret tt else for_array (el_setAuthor name iconURL url).

(** [setColor (color)] *)
Definition setColor (color : plain) : M state unit :=
  if negb (truthy color) then ret tt else for_array (el_setColor color).

(** [setDescription (description)] *)
Definition setDescription (description : plain) : M state unit :=
  if negb (truthy description) then ret tt else for_array (el_setDescription description).

(** [setFooter (text, iconURL?)] *)
Definition setFooter (text iconURL : plain) : M state unit :=
  if negb (truthy text) then ret tt else for_array (el_setFooter text iconURL).

(** [setImage (url)] *)
Definition setImage (url : plain) : M state unit :=
  if negb (truthy url) then ret tt else for_array (el_setImage url).

(** [setThumbnail (url)] *)
Definition setThumbnail (url : plain) : M state unit :=
  if negb (truthy url) then ret tt else for_array (el_setThumbnail url).

(** [setTimestamp (timestamp?)] *)
Definition setTimestamp (timestamp : plain) : M state unit :=
  for_array (el_setTimestamp timestamp).

(** [setTitle (title)] *)
Definition setTitle (title : plain) : M state unit :=
  if negb (truthy title) then ret tt else for_array (el_setTitle title).

(** [setURL (url)] *)
Definition setURL (url : plain) : M state unit :=
  if negb (truthy url) then ret tt else for_array (el_setURL url).

(** [spliceField (index, deleteCount, name?, value?, inline?)] *)
Definition spliceField (index deleteCount name value inline : plain) : M state unit :=
  for_array (el_spliceField index deleteCount name value inline).

Definition emit (signal : string) : M world unit :=
  modify (fun w => with_calls (Base.calls w ++ [Emitted signal]) w).

(** [m.edit(content, { embed })] *)
Definition message_edit (m : Message) (content : option string) (e : option E)
  : M world unit :=
  fun w =>
    (edit_answer (Base.calls w) m content e,
     with_calls (Base.calls w ++ [Edited m content e]) w).

(** [_loadList (callNavigation = true)].  The message is used without a
    test: without one, reading [edit] off [undefined] throws. *)
Definition _loadList (callNavigation : bool) : M world unit :=
  (let* s := gets Base.self in
   let content := shouldIndicate (Base.pageIndicator s) (Base.page s) (Base.pages s) in
   run match Base.message s with
       | Some m => message_edit m content (currentEmbed s)
       | None => throw (TypeError "Cannot read property 'edit' of undefined")
       end
   then Base.super_loadList callNavigation)%method.

(** The first statement of [build]. *)
Definition count_pages (s : Base.session E) : number :=
  of_nat (List.length (Base.array s)).

(** [build] from [await this._verify()] on. *)
Definition build_continue : M world unit :=
  (run Base._verify then
   run emit "start" then
   _loadList true)%method.

(** [build ()] *)
Definition build : M world unit :=
  (run modify (fun w =>
         with_self (Base.with_pages (count_pages (Base.self w)) (Base.self w)) w)
   then build_continue)%method.

(** The world once [build] has set [pages]. *)
Definition counted (w : world) : world :=
  with_self (Base.with_pages (count_pages (Base.self w)) (Base.self w)) w.

(** The world in which [build] reaches [_loadList], when it does: after
    [_verify], with [start] emitted. *)
Definition prepared (w : world) : world :=
  let w2 := snd (Base._verify (counted w)) in
  with_calls (Base.calls w2 ++ [Emitted "start"]) w2.

(** The setters that test an argument before they touch the embeds, as one
    family. *)
Inductive styling : Type :=
| SetTitle (title : plain)
| SetDescription (description : plain)
| SetColor (color : plain)
| SetFooter (text iconURL : plain)
| SetImage (url : plain)
| SetThumbnail (url : plain)
| SetURL (url : plain)
| SetAuthor (name iconURL url : plain)
| AddField (name value : plain) (inline : option bool).

(** The method of the session behind a member of the family. *)
Definition styled (c : styling) : M state unit :=
  match c with
  | SetTitle title => setTitle title
  | SetDescription description => setDescription description
  | SetColor color => setColor color
  | SetFooter text iconURL => setFooter text iconURL
  | SetImage url => setImage url
  | SetThumbnail url => setThumbnail url
  | SetURL url => setURL url
  | SetAuthor name iconURL url => setAuthor name iconURL url
  | AddField name value inline => addField name value inline
  end.

(** The method of [MessageEmbed] it forwards to. *)
Definition on_embed (c : styling) : E -> M contents unit :=
  match c with
  | SetTitle title => el_setTitle title
  | SetDescription description => el_setDescription description
  | SetColor color => el_setColor color
  | SetFooter text iconURL => el_setFooter text iconURL
  | SetImage url => el_setImage url
  | SetThumbnail url => el_setThumbnail url
  | SetURL url => el_setURL url
  | SetAuthor name iconURL url => el_setAuthor name iconURL url
  | AddField name value inline => el_addField name value (default false inline)
  end.

(** Whether the argument it tests is truthy; [addField] tests two and
    goes on when either is. *)
Definition argument_given (c : styling) : bool :=
  match c with
  | SetTitle title => truthy title
  | SetDescription description => truthy description
  | SetColor color => truthy color
  | SetFooter text _ => truthy text
  | SetImage url => truthy url
  | SetThumbnail url => truthy url
  | SetURL url => truthy url
  | SetAuthor name _ _ => truthy name
  | AddField name value _ => truthy name || truthy value
  end.

(** The content that [_loadList] passes along with the embed. *)
Definition indicator (s : Base.session E) : option string :=
  shouldIndicate (Base.pageIndicator s) (Base.page s) (Base.pages s).

(** The contents after [method] has been called on each of [called], one
    after the other, whatever the calls answered. *)
Definition after (method : E -> M contents unit) (called : list E) (h : contents)
  : contents :=
  fold_left (fun h' el => snd (method el h')) called h.

(** What a loop of [method] over the array has done when it ends in [r],
    started in [st].  The session is as it was.  When the loop returns, the
    method has been called on every index of the array, in order, and every
    call returned.  When it throws, the call at some index threw that error,
    the calls at the indices before it returned, and the contents are as
    that call left them: nothing was called after it. *)
Definition visited (method : E -> M contents unit) (st : state)
    (r : outcome unit * state) : Prop :=
  let xs := Base.array (Base.self (this st)) in
  let returns (i : nat) (el : E) :=
    returned (fst (method el (after method (take i xs) (objects st)))) = true in
  this (snd r) = this st /\
  match fst r with
  | Return _ =>
      objects (snd r) = after method xs (objects st) /\
      forall (i : nat) (el : E), xs !! i = Some el -> returns i el
  | Throw e =>
      exists (i : nat) (el : E),
        xs !! i = Some el /\
        (forall (j : nat) (el' : E), (j < i)%nat -> xs !! j = Some el' -> returns j el') /\
        method el (after method (take i xs) (objects st)) = (Throw e, objects (snd r))
  end.

End Class_.

Arguments MessageEmbedLib E : clear implicits.
Arguments world E : clear implicits.
Arguments state E {_}.
Arguments mkState {E _} objects this.
Arguments argument E : clear implicits.

End Embeds.

(* ------------------------------------------------------------------------- *)
(** ** The reaction router *)

Module Router.

Abbreviation UserId := string (only parsing).
Abbreviation Symbol := string (only parsing).

(** Modelled from the spec: how a session ends (section 3). *)
Inductive ending : Type := Deleted | Expired | Failed.

(** Modelled from the spec: the life of a session (section 3). *)
Inductive lifecycle : Type :=
| Idle
| Listening
| Terminated (why : ending).

(** Modelled from the spec: the built-in navigation actions (section 3). *)
Inductive action : Type := Back | Jump | Forward | First | Last | Delete.

(** Modelled from the spec: the actions in the order section 3 lists them. *)
Definition actions : list action := [Back; Jump; Forward; First; Last; Delete].

Section Session.
(** [D] is the backing data a function hook may change. *)
Context {D : Type}.

(** Modelled from the spec: the page state of a session with what a
    dispatch leaves to be observed (section 3 of the specification; the
    base class [PaginationEmbed] is not among the sources).  [renders]
    lists the pages re-rendered, [resets] counts the restarts of the idle
    timer, [removed] tells that the displayed artifact was deleted. *)
Record state : Type := mkState {
  page : Z;
  pages : Z;
  data : D;
  phase : lifecycle;
  renders : list Z;
  resets : nat;
  removed : bool
}.

Definition Callback : Type := UserId -> state -> state.

(** Modelled from the spec: the configuration of a session (section 3),
    the part of [PaginationEmbed] that the router consults. *)
Record config : Type := mkConfig {
  authorizedUsers : gset UserId;
  navigationEmojis : action -> option Symbol;
  functionHooks : gmap Symbol Callback
}.

(** Modelled from the spec: a reaction event (section 3), together with
    the text the same user sends next, if any arrives before the
    sub-dialog of [jump] times out. *)
Record ReactionEvent : Type := mkEvent {
  emoji : Symbol;
  user : UserId;
  follow_up : option string
}.

(** Modelled from the spec: an assignment to [page]. *)
Definition with_page (p : Z) (s : state) : state :=
  mkState p (pages s) (data s) (phase s) (renders s) (resets s) (removed s).

(** Modelled from the spec: a decimal digit of the text sent after [jump]. *)
Definition digit (c : ascii) : option Z :=
  let n := Z.of_nat (nat_of_ascii c) in
  if ((48 <=? n)%Z && (n <=? 57)%Z)%bool then Some (n - 48) else None.

(** Modelled from the spec: the number a run of decimal digits stands for. *)
Fixpoint digits (acc : Z) (s : string) : option Z :=
  match s with
  | EmptyString => Some acc
  | String c rest =>
      match digit c with
      | Some d => digits (10 * acc + d) rest
      | None => None
      end
  end.

(** Modelled from the spec: "parse as integer" (section 4.3, [jump]): a
    non-empty run of decimal digits, with an optional minus sign. *)
Definition parse_integer (s : string) : option Z :=
  match s with
  | EmptyString => None
  | String "-" EmptyString => None
  | String "-" rest => option_map Z.opp (digits 0 rest)
  | _ => digits 0 s
  end.

(** Modelled from the spec: step 1 of section 4.3, an empty set of
    authorized users admitting everyone. *)
Definition authorized (c : config) (u : UserId) : bool :=
  bool_decide (authorizedUsers c = ∅) || bool_decide (u ∈ authorizedUsers c).

(** Modelled from the spec: step 2 of section 4.3, navigation bindings
    before function hooks. *)
Definition resolve (c : config) (e : Symbol) : option (action + Callback) :=
  match List.find (fun a => bool_decide (navigationEmojis c a = Some e)) actions with
  | Some a => Some (inl a)
  | None => option_map inr (functionHooks c !! e)
  end.

(** Modelled from the spec: the built-in actions other than [delete]
    (step 3 of section 4.3). *)
Definition navigate (a : action) (answer : option string) (s : state) : state :=
  match a with
  | Back => with_page (Z.max 1 (page s - 1)) s
  | Forward => with_page (Z.min (pages s) (page s + 1)) s
  | First => with_page 1 s
  | Last => with_page (pages s) s
  | Jump =>
      match answer with
      | Some text =>
          match parse_integer text with
          | Some n => if ((1 <=? n)%Z && (n <=? pages s)%Z)%bool then with_page n s else s
          | None => s
          end
      | None => s
      end
  | Delete => s
  end.

(** Modelled from the spec: step 4 of section 4.3. *)
Definition rerender (s : state) : state :=
  mkState (page s) (pages s) (data s) (phase s)
          (renders s ++ [page s]) (S (resets s)) (removed s).

(** Modelled from the spec: [delete] removes the artifact and ends the
    session (step 3 of section 4.3). *)
Definition terminate (s : state) : state :=
  mkState (page s) (pages s) (data s) (Terminated Deleted)
          (renders s) (resets s) true.

(** Modelled from the spec: the transition on one reaction event
    (section 4.3 of the specification; the router of [PaginationEmbed] is
    not among the sources). *)
Definition dispatch (c : config) (ev : ReactionEvent) (s : state) : state :=
  match phase s with
  | Listening =>
      if authorized c (user ev) then
        match resolve c (emoji ev) with
        | Some (inl Delete) => terminate s
        | Some (inl a) => rerender (navigate a (follow_up ev) s)
        | Some (inr hook) => rerender (hook (user ev) s)
        | None => s
        end
      else s
  | _ => s
  end.

(** Modelled from the spec: the router consumes the reaction events one
    at a time, each dispatch running to completion (section 5). *)
Definition run (c : config) (evs : list ReactionEvent) (s : state) : state :=
  fold_left (fun st ev => dispatch c ev st) evs s.

(** Modelled from the spec: the states after each dispatch of a run. *)
Fixpoint history (c : config) (evs : list ReactionEvent) (s : state) : list state :=
  match evs with
  | [] => []
  | ev :: rest => dispatch c ev s :: history c rest (dispatch c ev s)
  end.

(** Modelled from the spec: the page invariant of section 3. *)
Definition in_bounds (s : state) : Prop := 1 <= page s <= pages s.

(** Modelled from the spec: a valid configuration keeps its hooks to the
    contract of section 4.3: a hook that touches [page] or [pages] keeps
    them consistent. *)
Definition valid (c : config) : Prop :=
  forall e hook, functionHooks c !! e = Some hook ->
    forall u s, in_bounds s -> in_bounds (hook u s).

End Session.

Arguments state D : clear implicits.
Arguments config D : clear implicits.
Arguments Callback D : clear implicits.

End Router.

(* ------------------------------------------------------------------------- *)
(** ** A sample host, library and base class

    Concrete collaborators on which the statements below are exercised. *)

Module Sample.
Import JS Render Effects.

Definition host : Host :=
  {| fraction_text := fun _ => "?"; object_text := fun _ => "[object Object]";
     function_text := "function" |}.

(** A transport that accepts everything and numbers the messages it
    creates by the calls seen so far. *)
Definition transport (R : Type) : Transport R :=
  {| send_answer := fun cs _ _ => Return (List.length cs);
     edit_answer := fun _ _ _ _ => Return tt |}.

(** The check of the page number that later releases of the base class
    make in [_verify]. *)
Definition verify (A R : Type) : Base.Verify A R :=
  {| Base._verify := fun w =>
       let s := Base.self w in
       if num_leb (of_Z 1) (Base.page s) && num_leb (Base.page s) (Base.pages s)
       then (Return tt, w)
       else (Throw (RangeError "Page number is out of bounds."), w) |}.

Definition navigation (W : Type) : Base.Navigation W :=
  {| Base.super_loadList := fun _ w => (Return tt, w) |}.

(** [RichEmbed.addField] after discord.js 11: at most 25 fields, no empty
    value, the value stored as text. *)
Definition rich_addField {Element : Type} (n : string)
    (v : JS.value (Element -> plain)) (i : bool) (fs : list (FieldsEmbed.Field Element))
  : outcome (list (FieldsEmbed.Field Element)) :=
  if Nat.leb 25 (List.length fs)
  then Throw (RangeError "RichEmbeds may not exceed 25 fields.")
  else if String.eqb (@to_text host _ v) ""
  then Throw (RangeError "RichEmbed field values may not be empty.")
  else Return (fs ++ [FieldsEmbed.mkField n (VString (@to_text host _ v)) i]).

Definition rich (Element : Type) : FieldsEmbed.RichEmbedLib Element.
Proof.
  refine {| FieldsEmbed.addField := rich_addField;
            FieldsEmbed.shares_fields := true |}.
  intros n v i fs fs'. unfold rich_addField.
  destruct (Nat.leb 25 (List.length fs)); [discriminate|].
  destruct (String.eqb _ ""); [discriminate|].
  intros [= <-]. eexists. split; reflexivity.
Defined.

(** A [MessageEmbed] with the members the setters of [Embeds] reach. *)
Record embed : Type := mkEmbed {
  title : option string;
  description : option string;
  url : option string;
  color : option string;
  timestamp : option string;
  thumbnail : option string;
  image : option string;
  author : option (string * plain * plain);
  footer : option (string * plain);
  fields : list (string * string * bool)
}.

Definition blank : embed := mkEmbed None None None None None None None None None [].

(** An embed with a title and nothing else *)
Definition titled (t : string) : embed :=
  mkEmbed (Some t) None None None None None None None None [].

Definition text (v : plain) : string := @to_text host _ v.

(** [MessageEmbed.addField] after discord.js: at most 25 fields, no empty
    name, no empty value; name and value are stored as text. *)
Definition push_field (n v : plain) (i : bool) (e : embed) : outcome embed :=
  if Nat.leb 25 (List.length (fields e))
  then Throw (RangeError "MessageEmbeds may not exceed 25 fields.")
  else if String.eqb (text n) "" then Throw (RangeError "MessageEmbed field names may not be empty.")
  else if String.eqb (text v) "" then Throw (RangeError "MessageEmbed field values may not be empty.")
  else Return (mkEmbed (title e) (description e) (url e) (color e) (timestamp e)
                 (thumbnail e) (image e) (author e) (footer e)
                 (fields e ++ [(text n, text v, i)])).

(** The embeds as objects: a store of embeds, an object being an index
    into it.  A method called on an object changes the embed at its index,
    or throws and leaves the store as it is. *)
Definition at_object (change : embed -> outcome embed) (r : nat) : M (list embed) unit :=
  fun h =>
    match h !! r with
    | Some e =>
        match change e with
        | Return e' => (Return tt, <[r := e']> h)
        | Throw err => (Throw err, h)
        end
    | None => (Throw (TypeError "Cannot read property of undefined"), h)
    end.

Definition message_embed : Embeds.MessageEmbedLib nat :=
  {| Embeds.contents := list embed;
     Embeds.el_addBlankField := fun i => at_object (fun e =>
       Return (mkEmbed (title e) (description e) (url e) (color e) (timestamp e)
                 (thumbnail e) (image e) (author e) (footer e)
                 (fields e ++ [(" ", " ", i)])));
     Embeds.el_addField := fun n v i => at_object (push_field n v i);
     Embeds.el_setAuthor := fun n icon u => at_object (fun e =>
       Return (mkEmbed (title e) (description e) (url e) (color e) (timestamp e)
                 (thumbnail e) (image e) (Some (text n, icon, u)) (footer e) (fields e)));
     Embeds.el_setColor := fun c => at_object (fun e =>
       Return (mkEmbed (title e) (description e) (url e) (Some (text c)) (timestamp e)
                 (thumbnail e) (image e) (author e) (footer e) (fields e)));
     Embeds.el_setDescription := fun d => at_object (fun e =>
       Return (mkEmbed (title e) (Some (text d)) (url e) (color e) (timestamp e)
                 (thumbnail e) (image e) (author e) (footer e) (fields e)));
     Embeds.el_setFooter := fun t icon => at_object (fun e =>
       Return (mkEmbed (title e) (description e) (url e) (color e) (timestamp e)
                 (thumbnail e) (image e) (author e) (Some (text t, icon)) (fields e)));
     Embeds.el_setImage := fun u => at_object (fun e =>
       Return (mkEmbed (title e) (description e) (url e) (color e) (timestamp e)
                 (thumbnail e) (Some (text u)) (author e) (footer e) (fields e)));
     Embeds.el_setThumbnail := fun u => at_object (fun e =>
       Return (mkEmbed (title e) (description e) (url e) (color e) (timestamp e)
                 (Some (text u)) (image e) (author e) (footer e) (fields e)));
     Embeds.el_setTimestamp := fun t => at_object (fun e =>
       Return (mkEmbed (title e) (description e) (url e) (color e) (Some (text t))
                 (thumbnail e) (image e) (author e) (footer e) (fields e)));
     Embeds.el_setTitle := fun t => at_object (fun e =>
       Return (mkEmbed (Some (text t)) (description e) (url e) (color e) (timestamp e)
                 (thumbnail e) (image e) (author e) (footer e) (fields e)));
     Embeds.el_setURL := fun u => at_object (fun e =>
       Return (mkEmbed (title e) (description e) (Some (text u)) (color e) (timestamp e)
                 (thumbnail e) (image e) (author e) (footer e) (fields e)));
     Embeds.el_spliceField := fun _ _ _ _ _ => at_object (fun e => Return e) |}.

(** The inherited members as a constructor of the base class may leave
    them: nothing to paginate yet, first page, indicator on. *)
Definition fresh (A : Type) : Base.session A :=
  Base.mkSession [] (of_Z 1) (of_Z 0) true None 0.

(** A [FieldsEmbed] session as its constructor leaves it, given the elements
    to paginate and the number of elements per page. *)
Definition fields_world (xs : list nat) (perPage : number) : FieldsEmbed.world nat :=
  let w := FieldsEmbed.constructor (Base.with_array xs (fresh nat)) [] in
  FieldsEmbed.with_this (FieldsEmbed.with_elementsPerPage perPage (FieldsEmbed.this w)) w.

(** An [Embeds] session over the given embeds, each standing for itself,
    which is enough where no embed is changed. *)
Definition embeds_world (xs : list embed) : Embeds.world embed :=
  Base.mkWorld (Base.with_array xs (fresh embed)) [].

(** An [Embeds] session over embed objects: the embeds the store holds, and
    the array as the objects at its indices, where the same object may come
    several times. *)
Definition gallery (store : list embed) (array : list nat) : @Embeds.state nat message_embed :=
  @Embeds.mkState nat message_embed store
    (Base.mkWorld (Base.with_array array (fresh nat)) []).

(** An embed with one field and nothing else *)
Definition with_field (n v : string) : embed :=
  mkEmbed None None None None None None None None None [(n, v, false)].

(** An embed that has all the fields an embed may have *)
Definition full : embed :=
  mkEmbed None None None None None None None None None (replicate 25 ("n", "v", false)).

(** A [FieldsEmbed] session of three pages over the given numbers, with one
    formatted field and one field of text. *)
Definition listing (xs : list nat) (page perPage : number) (m : option nat)
  : FieldsEmbed.world nat :=
  FieldsEmbed.mkWorld
    (FieldsEmbed.mkSession
       (Base.mkSession xs page (of_Z 3) true m 0) perPage
       (FieldsEmbed.mkEmbed (Some "Numbers") None None None 0))
    [[FieldsEmbed.mkField "Number" (VFunction (fun n : nat => VNumber (of_nat n))) true;
      FieldsEmbed.mkField "About" (VString "every number") false]]
    [].

(** The same without the formatted field. *)
Definition unformatted (xs : list nat) : FieldsEmbed.world nat :=
  FieldsEmbed.mkWorld
    (FieldsEmbed.mkSession
       (Base.mkSession xs (of_Z 1) (of_Z 0) true None 0) (of_Z 10)
       (FieldsEmbed.mkEmbed (Some "Numbers") None None None 0))
    [[FieldsEmbed.mkField "About" (VString "every number") false]]
    [].

(** An [Embeds] session on a given page, with a message or without. *)
Definition album (xs : list embed) (page : number) (m : option nat) : Embeds.world embed :=
  Base.mkWorld (Base.mkSession xs page (of_Z 0) true m 0) [].

(** A hook that counts its calls in the backing data. *)
Definition count_press : Router.Callback nat :=
  fun _ s => Router.mkState (Router.page s) (Router.pages s) (S (Router.data s))
               (Router.phase s) (Router.renders s) (Router.resets s) (Router.removed s).

(** A configuration with the four default navigation actions, one hook and
    one authorized user. *)
Definition bindings : Router.config nat :=
  Router.mkConfig
    ({[ "U1" ]} : gset string)
    (fun a => match a with
              | Router.Back => Some "back"
              | Router.Jump => Some "jump"
              | Router.Forward => Some "forward"
              | Router.Delete => Some "delete"
              | _ => None
              end)
    ({[ "count" := count_press ]} : gmap string (Router.Callback nat)).

(** A session of three pages that listens, on its first page. *)
Definition listening : Router.state nat :=
  Router.mkState 1 3 0%nat Router.Listening [] 0 false.

Definition press (e u : string) : Router.ReactionEvent := Router.mkEvent e u None.

(** A transport that rejects everything, as one without permissions does. *)
Definition refusing (R : Type) : Transport R :=
  {| send_answer := fun _ _ _ => Throw (Error "Missing Permissions");
     edit_answer := fun _ _ _ _ => Throw (Error "Missing Permissions") |}.

(** A [FieldsEmbed] session whose template has, after a formatted field, a
    field with an empty text, which [addField] refuses, and a third field. *)
Definition flawed (xs : list nat) : FieldsEmbed.world nat :=
  FieldsEmbed.mkWorld
    (FieldsEmbed.mkSession
       (Base.mkSession xs (of_Z 1) (of_Z 0) true None 0) (of_Z 10)
       (FieldsEmbed.mkEmbed (Some "Numbers") None None None 0))
    [[FieldsEmbed.mkField "Number" (VFunction (fun n : nat => VNumber (of_nat n))) true;
      FieldsEmbed.mkField "Empty" (VString "") false;
      FieldsEmbed.mkField "About" (VString "every number") false]]
    [].

End Sample.

(* ------------------------------------------------------------------------- *)
(** * Properties *)

(** ** Numbers, slices and indices *)

Module JSFacts.
Import JS.

Lemma Qceiling_div_pos (a : Z) (b : positive) :
  Qceiling (inject_Z a / inject_Z (Zpos b)) = (a + Zpos b - 1) / Zpos b.
Proof.
  unfold Qceiling, Qfloor, Qdiv, Qinv, Qmult, Qopp, inject_Z. simpl.
  change (1 * b)%positive with b. rewrite ?Z.mul_1_r.
  apply Z.div_unique with (r := Zpos b - 1 - (- a) mod Zpos b).
  - left. pose proof (Z.mod_pos_bound (- a) (Zpos b)). lia.
  - pose proof (Z.div_mod (- a) (Zpos b)). lia.
Qed.

(** Signs and zeros of rationals *)
Lemma Qneg_b_spec (q : Q) : Qneg_b q = true <-> (q < 0)%Q.
Proof.
  unfold Qneg_b, Qlt. destruct q as [n d]. simpl.
  rewrite Z.ltb_lt. lia.
Qed.

Lemma Qneg_b_nonneg (q : Q) : (0 <= q)%Q -> Qneg_b q = false.
Proof.
  intros Hq. destruct (Qneg_b q) eqn:Hn; [|reflexivity].
  apply Qneg_b_spec in Hn. exfalso. exact (Qlt_not_le _ _ Hn Hq).
Qed.

Lemma Qzero_b_spec (q : Q) : Qzero_b q = true <-> (q == 0)%Q.
Proof.
  unfold Qzero_b, Qeq. destruct q as [n d]. simpl.
  rewrite Z.eqb_eq. lia.
Qed.

Lemma Qzero_b_apart (q : Q) : ~ (q == 0)%Q -> Qzero_b q = false.
Proof.
  intros Hq. destruct (Qzero_b q) eqn:Hz; [|reflexivity].
  apply Qzero_b_spec in Hz. contradiction.
Qed.

Lemma Qzero_b_integer (q : Q) (z : Z) :
  (q == inject_Z z)%Q -> Qzero_b q = Z.eqb z 0.
Proof.
  intros Hq. destruct (Z.eqb_spec z 0) as [->|Hz].
  - apply Qzero_b_spec. exact Hq.
  - apply Qzero_b_apart. intros H0. apply Hz.
    rewrite Hq in H0. unfold Qeq, inject_Z in H0. simpl in H0. lia.
Qed.


(** [Math.ceil (n / e)] on a count [n] and a positive [e] *)
Lemma ceil_div_count (n : nat) (e : Q) :
  (0 < e)%Q ->
  Math_ceil (num_div (of_nat n) (Fin e)) =
  of_Z (Qceiling (inject_Z (Z.of_nat n) / e)).
Proof.
  intros He.
  assert (Hne : ~ (e == 0)%Q) by (intros Heq; rewrite Heq in He; discriminate).
  unfold num_div, of_nat, of_Z at 1. rewrite (Qzero_b_apart _ Hne).
  rewrite (Qzero_b_integer _ (Z.of_nat n)) by reflexivity.
  destruct (Z.eqb_spec (Z.of_nat n) 0) as [Hn|Hn].
  - rewrite (Qneg_b_nonneg e) by (apply Qlt_le_weak, He).
    rewrite Hn. change (Math_ceil (signed_zero false)) with (of_Z 0).
    assert (H0 : Qceiling (inject_Z 0 / e) = 0).
    { transitivity (Qceiling (inject_Z 0)); [apply Qceiling_comp | apply Qceiling_Z].
      unfold Qdiv. apply Qmult_0_l. }
    rewrite H0. reflexivity.
  - unfold Math_ceil. rewrite Qneg_b_nonneg; [reflexivity|].
    apply Qle_shift_div_l; [exact He|]. rewrite Qmult_0_l.
    unfold Qle, inject_Z. simpl. lia.
Qed.

(** [Math.ceil (n / e)] for a positive integer [e] is the quotient of
    [n + e - 1] by [e], the least integer [k] with [n <= k * e]. *)
Lemma ceil_div_integers (n : nat) (e : Q) (m : Z) :
  (e == inject_Z m)%Q -> 0 < m ->
  let k := (Z.of_nat n + m - 1) / m in
  Math_ceil (num_div (of_nat n) (Fin e)) = of_Z k /\
  (k - 1) * m < Z.of_nat n <= k * m.
Proof.
  intros He Hm k.
  assert (Hpos : (0 < e)%Q).
  { rewrite He. unfold Qlt, inject_Z. simpl. lia. }
  rewrite (ceil_div_count n e Hpos). split.
  - f_equal. unfold k. destruct m as [|pm|pm]; try lia.
    rewrite <- Qceiling_div_pos. apply Qceiling_comp. rewrite He. reflexivity.
  - unfold k. pose proof (Z.div_mod (Z.of_nat n + m - 1) m ltac:(lia)) as Hdm.
    pose proof (Z.mod_pos_bound (Z.of_nat n + m - 1) m Hm) as Hmod. nia.
Qed.

Lemma as_integer_Fin (q : Q) (z : Z) :
  as_integer (Fin q) = Some z -> (q == inject_Z z)%Q.
Proof.
  unfold as_integer. destruct (Qeq_bool q (inject_Z (Qfloor q))) eqn:Heq; [|discriminate].
  intros [= <-]. apply Qeq_bool_iff. exact Heq.
Qed.

Lemma as_integer_of_Qeq (q : Q) (z : Z) :
  (q == inject_Z z)%Q -> as_integer (Fin q) = Some z.
Proof.
  intros Hq. unfold as_integer. rewrite (Qfloor_comp _ _ Hq), Qfloor_Z.
  rewrite (proj2 (Qeq_bool_iff _ _)); [reflexivity | exact Hq].
Qed.

(** An integer is the negative zero or a rational equal to it. *)
Lemma as_integer_cases (a : number) (z : Z) :
  as_integer a = Some z ->
  (a = NegZero /\ z = 0) \/ (exists q, a = Fin q /\ (q == inject_Z z)%Q).
Proof.
  destruct a as [| | |q]; try discriminate.
  - intros [= <-]. left. split; reflexivity.
  - intros Hz. right. exists q. split; [reflexivity | apply as_integer_Fin, Hz].
Qed.

Lemma as_integer_inv (a : number) (z : Z) :
  as_integer a = Some z -> z <> 0 -> exists q, a = Fin q /\ (q == inject_Z z)%Q.
Proof.
  intros Ha Hz. destruct (as_integer_cases a z Ha) as [[_ ->]|Hq]; [lia | exact Hq].
Qed.

Lemma as_integer_of_Z (z : Z) : as_integer (of_Z z) = Some z.
Proof. apply as_integer_of_Qeq. reflexivity. Qed.

Lemma as_integer_signed_zero (s : bool) : as_integer (signed_zero s) = Some 0.
Proof. destruct s; reflexivity. Qed.

Lemma truncate_integer (q : Q) (z : Z) :
  (q == inject_Z z)%Q -> truncate q = z.
Proof.
  intros Hq. unfold truncate.
  destruct (Qneg_b q).
  - rewrite (Qceiling_comp _ _ Hq). apply Qceiling_Z.
  - rewrite (Qfloor_comp _ _ Hq). apply Qfloor_Z.
Qed.

Lemma ToIntegerOrInfinity_integer (a : number) (z : Z) :
  as_integer a = Some z -> ToIntegerOrInfinity a = Some (inl z).
Proof.
  intros Ha. destruct (as_integer_cases a z Ha) as [[-> ->]|(q & -> & Hq)].
  - reflexivity.
  - simpl. rewrite (truncate_integer _ _ Hq). reflexivity.
Qed.

(** Sums, differences and products of integers *)
Lemma add_integer (a b : number) (x y : Z) :
  as_integer a = Some x -> as_integer b = Some y ->
  as_integer (num_add a b) = Some (x + y).
Proof.
  intros Ha Hb.
  destruct (as_integer_cases a x Ha) as [[-> ->]|(p & -> & Hp)];
    destruct (as_integer_cases b y Hb) as [[-> ->]|(q & -> & Hq)]; simpl.
  - reflexivity.
  - exact Hb.
  - rewrite Z.add_0_r. exact Ha.
  - apply as_integer_of_Qeq. rewrite Hp, Hq, inject_Z_plus. reflexivity.
Qed.

Lemma opp_integer (a : number) (x : Z) :
  as_integer a = Some x -> as_integer (num_opp a) = Some (- x).
Proof.
  intros Ha. destruct (as_integer_cases a x Ha) as [[-> ->]|(p & -> & Hp)]; simpl.
  - reflexivity.
  - rewrite (Qzero_b_integer _ _ Hp). destruct (Z.eqb_spec x 0) as [->|_].
    + reflexivity.
    + apply as_integer_of_Qeq. rewrite Hp, inject_Z_opp. reflexivity.
Qed.

Lemma sub_integer (a b : number) (x y : Z) :
  as_integer a = Some x -> as_integer b = Some y ->
  as_integer (num_sub a b) = Some (x - y).
Proof.
  intros Ha Hb. unfold num_sub, Z.sub.
  apply add_integer; [exact Ha | apply opp_integer, Hb].
Qed.

Lemma mul_integer (a b : number) (x y : Z) :
  as_integer a = Some x -> as_integer b = Some y ->
  as_integer (num_mul a b) = Some (x * y).
Proof.
  intros Ha Hb.
  destruct (as_integer_cases a x Ha) as [[-> ->]|(p & -> & Hp)];
    destruct (as_integer_cases b y Hb) as [[-> ->]|(q & -> & Hq)]; simpl.
  - reflexivity.
  - apply as_integer_signed_zero.
  - rewrite Z.mul_0_r. apply as_integer_signed_zero.
  - rewrite (Qzero_b_integer _ _ Hp), (Qzero_b_integer _ _ Hq).
    destruct (Z.eqb_spec x 0) as [->|Hx]; simpl.
    + apply as_integer_signed_zero.
    + destruct (Z.eqb_spec y 0) as [->|Hy].
      * rewrite Z.mul_0_r. apply as_integer_signed_zero.
      * apply as_integer_of_Qeq. rewrite Hp, Hq, inject_Z_mult. reflexivity.
Qed.

(** [slice] between two integers: both are clamped into the array. *)
Lemma slice_integers {A : Type} (ys : list A) (a b : number) (i j : Z) :
  as_integer a = Some i -> as_integer b = Some j ->
  slice ys a b =
  (let len := Z.of_nat (List.length ys) in
   let k := clamp_index len (Some (inl i)) in
   let final := clamp_index len (Some (inl j)) in
   take (Z.to_nat (Z.max (final - k) 0)) (drop (Z.to_nat k) ys)).
Proof.
  intros Ha Hb. unfold slice.
  rewrite (ToIntegerOrInfinity_integer _ _ Ha), (ToIntegerOrInfinity_integer _ _ Hb).
  reflexivity.
Qed.

(** [slice] between two integers that are not negative is the window
    between them, cut at the end of the array. *)
Lemma slice_window {A : Type} (xs : list A) (a b : number) (i j : Z) :
  as_integer a = Some i -> as_integer b = Some j -> 0 <= i -> 0 <= j ->
  slice xs a b =
  take (Z.to_nat (Z.min j (Z.of_nat (List.length xs)) - i)) (drop (Z.to_nat i) xs).
Proof.
  intros Ha Hb Hi Hj. rewrite (slice_integers _ _ _ _ _ Ha Hb).
  unfold clamp_index.
  destruct (Z.ltb_spec i 0) as [?|_]; [lia|].
  destruct (Z.ltb_spec j 0) as [?|_]; [lia|].
  destruct (Z.le_gt_cases i (Z.of_nat (List.length xs))) as [Hle|Hgt].
  - rewrite (Z.min_l i) by exact Hle. f_equal. lia.
  - rewrite (Z.min_r i) by lia. rewrite Nat2Z.id.
    rewrite !drop_ge by lia. rewrite !take_nil. reflexivity.
Qed.

(** The window read item by item. *)
Lemma window_lookup {A : Type} (xs : list A) (first count n : nat) :
  take count (drop first xs) !! n =
  if decide (n < count)%nat then xs !! (first + n)%nat else None.
Proof.
  destruct (decide (n < count)%nat) as [Hlt|Hge].
  - rewrite lookup_take_lt by exact Hlt. apply lookup_drop.
  - apply lookup_take_ge. lia.
Qed.

Lemma index_integer {A : Type} (xs : list A) (a : number) (z : Z) :
  as_integer a = Some z -> 0 <= z -> index xs a = xs !! Z.to_nat z.
Proof.
  intros Ha Hz. unfold index. rewrite Ha.
  destruct (Z.ltb_spec z 0); [lia | reflexivity].
Qed.



(** [a - 1] on an integer *)
Lemma pred_integer (a : number) (p : Z) :
  as_integer a = Some p -> as_integer (num_sub a (of_Z 1)) = Some (p - 1).
Proof. intros Ha. apply sub_integer; [exact Ha | apply as_integer_of_Z]. Qed.

End JSFacts.

(** ** [FieldsEmbed] *)

Module FieldsEmbedFacts.
Import JS Render Effects FieldsEmbed JSFacts.

Section Facts.
Context {Element : Type} `{Host} `{!RichEmbedLib Element} `{!Transport (drawn Element)}.
Context `{!Base.Verify Element (drawn Element)} `{!Base.Navigation (world Element)}.

Implicit Types (w : world Element) (s : session Element) (h : list (list (Field Element))).
Implicit Types (f : Field Element) (fs acc : list (Field Element)).

Lemma with_heap_id w : with_heap (heap w) w = w.
Proof. destruct w; reflexivity. Qed.

Lemma deref_app_l h fs (r : nat) :
  (r < List.length h)%nat -> deref (h ++ [fs]) r = deref h r.
Proof. intros Hr. unfold deref. rewrite lookup_app_l by exact Hr. reflexivity. Qed.

Lemma deref_app_new h fs : deref (h ++ [fs]) (List.length h) = fs.
Proof. unfold deref. rewrite list_lookup_middle by reflexivity. reflexivity. Qed.

Lemma deref_insert_eq h fs (r : nat) :
  (r < List.length h)%nat -> deref (<[r := fs]> h) r = fs.
Proof. intros Hr. unfold deref. rewrite list_lookup_insert_eq by exact Hr. reflexivity. Qed.

Lemma insert_app_new h fs fs' : <[List.length h := fs']> (h ++ [fs]) = h ++ [fs'].
Proof.
  rewrite insert_app_r_alt by reflexivity. rewrite Nat.sub_diag. reflexivity.
Qed.

(** A loop of [e.addField] calls only rewrites the array of [e]. *)
Lemma loop_addField (e : RichEmbed) g fs w :
  (fields e < List.length (heap w))%nat ->
  for_of fs (fun f => embed_addField e (name f) (g f) (inline f)) w =
  (fst (add_all g fs (deref (heap w) (fields e))),
   with_heap (<[fields e := snd (add_all g fs (deref (heap w) (fields e)))]> (heap w)) w).
Proof.
  revert w. induction fs as [|f rest IH]; intros w Hr.
  - simpl. unfold ret. f_equal. unfold deref.
    destruct (lookup_lt_is_Some_2 (heap w) (fields e) Hr) as [x Hx].
    rewrite Hx. simpl. rewrite list_insert_id by exact Hx.
    symmetry. apply with_heap_id.
  - simpl. unfold bind at 1. unfold embed_addField at 1.
    unfold bind, read, gets, lift, write, modify.
    destruct (addField (name f) (g f) (inline f) (deref (heap w) (fields e)))
      as [acc'|err] eqn:Hadd.
    + rewrite IH by (simpl; rewrite length_insert; exact Hr).
      simpl. rewrite deref_insert_eq by exact Hr.
      rewrite list_insert_insert_eq. reflexivity.
    + simpl. f_equal. unfold deref.
      destruct (lookup_lt_is_Some_2 (heap w) (fields e) Hr) as [x Hx].
      rewrite Hx. simpl. rewrite list_insert_id by exact Hx.
      symmetry. apply with_heap_id.
Qed.

(** Fields appended by [addField] never hold a function. *)
Lemma add_all_static g fs acc :
  Forall (fun f => has_function f = false) acc ->
  Forall (fun f => has_function f = false) (snd (add_all g fs acc)).
Proof.
  revert acc. induction fs as [|f rest IH]; intros acc Hacc; simpl.
  - exact Hacc.
  - destruct (addField (name f) (g f) (inline f) acc) as [acc'|err] eqn:Hadd.
    + apply IH. apply addField_appends in Hadd as (f' & -> & Hf').
      apply Forall_app. split; [exact Hacc|]. constructor; [exact Hf' | constructor].
    + exact Hacc.
Qed.

Lemma filter_static fs :
  Forall (fun f => has_function f = false) fs -> List.filter has_function fs = [].
Proof.
  induction 1 as [|f rest Hf _ IH]; simpl; [reflexivity|].
  rewrite Hf. exact IH.
Qed.

Lemma copied_length w : (List.length (heap w) <= List.length (copied w))%nat.
Proof.
  unfold copied. destruct shares_fields; [lia|]. rewrite length_app. simpl. lia.
Qed.

Lemma copied_lookup w (r : nat) :
  (r < List.length (heap w))%nat -> copied w !! r = heap w !! r.
Proof.
  intros Hr. unfold copied. destruct shares_fields; [reflexivity|].
  apply lookup_app_l. exact Hr.
Qed.

(** [_drawList] allocates the array of the embed it returns, fills it, and
    touches nothing else. *)
Lemma _drawList_eq w :
  wf w ->
  _drawList w =
  (match fst (drawing w) with
   | Return _ => Return (with_fields (List.length (copied w)) (embed (this w)))
   | Throw e => Throw e
   end,
   with_heap (copied w ++ [snd (drawing w)]) w).
Proof.
  intros Hwf. unfold wf in Hwf.
  assert (Hstep : forall w1 : world Element,
    this w1 = this w -> calls w1 = calls w -> heap w1 = copied w ->
    (let* r := alloc [] in
     let embed' := with_fields r (embed (this w)) in
     let* template := read (fields (embed (this w))) in
     run for_of template (fun field =>
           embed_addField embed' (name field) (drawn_value (this w) field) (inline field))
     then ret embed')%method w1 =
    (match fst (drawing w) with
     | Return _ => Return (with_fields (List.length (copied w)) (embed (this w)))
     | Throw e => Throw e
     end,
     with_heap (copied w ++ [snd (drawing w)]) w)).
  { intros w1 Hthis Hcalls Hheap.
    unfold bind at 1. unfold alloc at 1. cbv beta iota.
    unfold bind at 1. unfold read at 1, gets at 1. cbv beta iota.
    unfold bind at 1.
    rewrite loop_addField;
      [|simpl; rewrite length_app; simpl; lia].
    simpl heap. simpl fields.
    rewrite Hheap.
    assert (Htpl : deref (copied w ++ [[]]) (fields (embed (this w))) =
                   deref (heap w) (fields (embed (this w)))).
    { rewrite deref_app_l by (pose proof (copied_length w); lia).
      unfold deref. rewrite copied_lookup by exact Hwf. reflexivity. }
    rewrite Htpl, deref_app_new, insert_app_new.
    fold (drawing w).
    destruct (drawing w) as [[[]|err] filled]; simpl; unfold ret, with_heap; simpl;
      rewrite Hthis, Hcalls; reflexivity. }
  unfold _drawList. unfold bind at 1. unfold gets at 1. cbv beta iota.
  unfold bind at 1. unfold new_RichEmbed, copied in *.
  destruct shares_fields.
  - unfold ret at 1. cbv beta iota. apply Hstep; reflexivity.
  - unfold bind at 1. unfold read at 1, gets at 1. cbv beta iota.
    unfold bind at 1. unfold alloc at 1. cbv beta iota.
    unfold ret at 1. cbv beta iota.
    rewrite <- (Hstep (with_heap (heap w ++ [deref (heap w) (fields (embed (this w)))]) w));
      reflexivity.
Qed.

(** The world and the embed that [_drawList] leaves. *)
Lemma _drawList_frame w :
  wf w ->
  this (snd (_drawList w)) = this w /\
  calls (snd (_drawList w)) = calls w /\
  (forall r : nat, (r < List.length (heap w))%nat ->
     heap (snd (_drawList w)) !! r = heap w !! r) /\
  wf (snd (_drawList w)).
Proof.
  intros Hwf. rewrite (_drawList_eq w Hwf). simpl.
  pose proof (copied_length w) as Hlen. unfold wf in *.
  repeat split.
  - intros r Hr. rewrite lookup_app_l by lia. apply copied_lookup, Hr.
  - simpl. rewrite length_app. simpl. lia.
Qed.

Lemma _drawList_drawn w (e : RichEmbed) :
  wf w ->
  fst (_drawList w) = Return e ->
  draw (heap (snd (_drawList w))) e =
  mkDrawn (title (embed (this w))) (description (embed (this w)))
          (url (embed (this w))) (color (embed (this w))) (snd (drawing w)).
Proof.
  intros Hwf. rewrite (_drawList_eq w Hwf). simpl.
  destruct (fst (drawing w)); [|discriminate].
  intros [= <-]. unfold draw. simpl. rewrite deref_app_new. reflexivity.
Qed.

Lemma fields_loadList_eq (callNavigation : bool) w :
  wf w ->
  _loadList callNavigation w =
  match fst (_drawList w) with
  | Throw err => (Throw err, snd (_drawList w))
  | Return e =>
      match answered w e with
      | Return m => Base.super_loadList callNavigation (remembered m (rendered w e))
      | Throw err => (Throw err, rendered w e)
      end
  end.
Proof.
  intros Hwf. destruct (_drawList_frame w Hwf) as (Hthis & Hcalls & _ & _).
  unfold _loadList. unfold bind at 1.
  destruct (_drawList w) as [[e|err] w1] eqn:Hdraw; simpl in *; [|reflexivity].
  unfold bind at 1. unfold gets at 1. cbv beta iota.
  unfold bind at 1. unfold answered, rendered, indicator. rewrite Hdraw. simpl.
  rewrite Hthis.
  destruct (Base.message (super (this w))) as [m|].
  - unfold message_edit. rewrite Hcalls.
    destruct (edit_answer _ _ _ _) as [[]|err]; reflexivity.
  - unfold bind at 1. unfold channel_send. rewrite Hcalls.
    destruct (send_answer _ _ _) as [m|err]; [|reflexivity].
    unfold modify, remembered. simpl. rewrite Hthis. reflexivity.
Qed.

Lemma fields_build_eq w : build w = build_continue (counted w).
Proof. reflexivity. Qed.

(** The loop of [build] over fields that hold no function. *)
Lemma build_loop_static fs w :
  Forall (fun f => has_function f = false) fs ->
  wf w ->
  for_of fs (fun field =>
    if has_function field
    then formatField (name field) (value field) (Some (inline field))
    else
      (let* e := gets (fun w => embed (this w)) in
       embed_addField e (name field) (value field) (inline field))%method) w =
  (fst (add_all value fs (deref (heap w) (fields (embed (this w))))),
   with_heap (<[fields (embed (this w)) :=
                snd (add_all value fs (deref (heap w) (fields (embed (this w)))))]>
              (heap w)) w).
Proof.
  intros Hfs. revert w. induction Hfs as [|f rest Hf _ IH]; intros w Hwf; unfold wf in Hwf.
  - simpl. unfold ret. f_equal. unfold deref.
    destruct (lookup_lt_is_Some_2 (heap w) _ Hwf) as [x Hx].
    rewrite Hx. simpl. rewrite list_insert_id by exact Hx.
    symmetry. apply with_heap_id.
  - simpl. rewrite Hf. unfold bind at 1. unfold bind at 1. unfold gets at 1.
    cbv beta iota. unfold embed_addField at 1.
    unfold bind, read, gets, lift, write, modify.
    destruct (addField (name f) (value f) (inline f) _) as [acc'|err] eqn:Hadd.
    + rewrite IH by (unfold wf; simpl; rewrite length_insert; exact Hwf).
      simpl. rewrite deref_insert_eq by exact Hwf.
      rewrite list_insert_insert_eq. reflexivity.
    + simpl. f_equal. unfold deref.
      destruct (lookup_lt_is_Some_2 (heap w) _ Hwf) as [x Hx].
      rewrite Hx. simpl. rewrite list_insert_id by exact Hx.
      symmetry. apply with_heap_id.
Qed.

(** [build] from [_verify] on, for a template without a formatted field. *)
Lemma build_continue_static w :
  Forall (fun f => has_function f = false) (deref (heap w) (fields (embed (this w)))) ->
  let verified := inherited Base._verify w in
  let template := deref (heap w) (fields (embed (this w))) in
  build_continue w =
  (match fst verified with
   | Throw e => Throw e
   | Return _ =>
       match fst (add_all value template []) with
       | Throw e => Throw e
       | Return _ => Throw (Error
           "Cannot invoke FieldsEmbed class without at least one formatted field to paginate.")
       end
   end,
   match fst verified with
   | Throw _ => snd verified
   | Return _ =>
       with_heap (heap w ++ [snd (add_all value template [])])
         (with_this (with_embed (with_fields (List.length (heap w)) (embed (this w)))
                       (this (snd verified))) (snd verified))
   end).
Proof.
  intros Hstatic verified template.
  assert (Hv : heap (snd verified) = heap w /\ embed (this (snd verified)) = embed (this w)).
  { unfold verified, inherited. destruct (Base._verify _) as [o b]. split; reflexivity. }
  destruct Hv as [Hheap Hembed].
  unfold build_continue. unfold bind at 1.
  fold verified. destruct verified as [[[]|err] w2] eqn:Hver; simpl in *; [|reflexivity].
  unfold bind at 1. unfold gets at 1. cbv beta iota.
  unfold bind at 1. unfold read at 1, gets at 1. cbv beta iota.
  unfold bind at 1. unfold alloc at 1. cbv beta iota.
  unfold bind at 1. unfold modify at 1. cbv beta iota.
  unfold bind at 1.
  rewrite Hembed, Hheap. fold template.
  rewrite build_loop_static;
    [|exact Hstatic|unfold wf; simpl; rewrite length_app; simpl; lia].
  simpl. rewrite deref_app_new, insert_app_new.
  pose proof (add_all_static value template [] (Forall_nil_2 _)) as Hall.
  destruct (add_all value template []) as [[[]|err] filled]; simpl in *;
    [|unfold with_heap, with_this; simpl; rewrite ?Hembed; reflexivity].
  unfold bind at 1. unfold gets at 1. cbv beta iota.
  unfold bind at 1. unfold read at 1, gets at 1. simpl.
  rewrite deref_app_new. rewrite (filter_static _ Hall). simpl.
  unfold throw. f_equal. unfold with_heap, with_this. simpl. rewrite Hembed. reflexivity.
Qed.

Lemma formatField_function (n : string) (v : JS.value (Element -> plain))
    (i : option bool) w :
  is_function v = true ->
  formatField n v i w =
  (Return tt,
   with_heap (<[fields (embed (this w)) :=
                deref (heap w) (fields (embed (this w))) ++ [mkField n v (default true i)]]>
              (heap w)) w).
Proof. intros Hv. unfold formatField. rewrite Hv. reflexivity. Qed.

(** The loop of [build], seen from the array it fills. *)
Lemma build_loop fs w :
  wf w ->
  for_of fs (fun field =>
    if has_function field
    then formatField (name field) (value field) (Some (inline field))
    else
      (let* e := gets (fun w => embed (this w)) in
       embed_addField e (name field) (value field) (inline field))%method) w =
  (fst (rebuild fs (deref (heap w) (fields (embed (this w))))),
   with_heap (<[fields (embed (this w)) :=
                snd (rebuild fs (deref (heap w) (fields (embed (this w)))))]>
              (heap w)) w).
Proof.
  revert w. induction fs as [|f rest IH]; intros w Hwf; pose proof Hwf as Hr; unfold wf in Hr.
  - simpl. unfold ret. f_equal. unfold deref.
    destruct (lookup_lt_is_Some_2 (heap w) _ Hr) as [x Hx].
    rewrite Hx. simpl. rewrite list_insert_id by exact Hx.
    symmetry. apply with_heap_id.
  - simpl. destruct (has_function f) eqn:Hf.
    + unfold bind at 1. rewrite formatField_function by exact Hf.
      rewrite IH by (unfold wf; simpl; rewrite length_insert; exact Hr).
      simpl. rewrite deref_insert_eq by exact Hr.
      rewrite list_insert_insert_eq. reflexivity.
    + unfold bind at 1. unfold bind at 1. unfold gets at 1.
      cbv beta iota. unfold embed_addField at 1.
      unfold bind, read, gets, lift, write, modify.
      destruct (addField (name f) (value f) (inline f) _) as [acc'|err] eqn:Hadd.
      * rewrite IH by (unfold wf; simpl; rewrite length_insert; exact Hr).
        simpl. rewrite deref_insert_eq by exact Hr.
        rewrite list_insert_insert_eq. reflexivity.
      * simpl. f_equal. unfold deref.
        destruct (lookup_lt_is_Some_2 (heap w) _ Hr) as [x Hx].
        rewrite Hx. simpl. rewrite list_insert_id by exact Hx.
        symmetry. apply with_heap_id.
Qed.

(** An inherited method leaves the store, the template and
    [elementsPerPage] alone. *)
Lemma inherited_frame {A : Type} (m : M (Base.world Element (drawn Element)) A) w :
  heap (snd (inherited m w)) = heap w /\
  embed (this (snd (inherited m w))) = embed (this w) /\
  elementsPerPage (this (snd (inherited m w))) = elementsPerPage (this w).
Proof. unfold inherited. destruct (m _) as [o b]. repeat split. Qed.

(** [build], step by step. *)
Lemma build_steps w :
  let verified := inherited Base._verify (counted w) in
  let w2 := snd verified in
  let template := deref (heap w2) (fields (embed (this w2))) in
  let w3 := with_heap (heap w2 ++ [snd (rebuild template [])])
              (with_this (with_embed (with_fields (List.length (heap w2)) (embed (this w2)))
                            (this w2)) w2) in
  build w =
  match fst verified with
  | Throw e => (Throw e, w2)
  | Return _ =>
      match fst (rebuild template []) with
      | Throw e => (Throw e, w3)
      | Return _ =>
          if Nat.eqb (List.length (List.filter has_function (snd (rebuild template [])))) 0
          then (Throw (Error
            "Cannot invoke FieldsEmbed class without at least one formatted field to paginate."),
                w3)
          else _loadList true (prepared w)
      end
  end.
Proof.
  cbv zeta.
  rewrite fields_build_eq. unfold build_continue. unfold bind at 1. unfold prepared.
  destruct (inherited Base._verify (counted w)) as [[[]|err] w2] eqn:Hver;
    cbv [fst snd]; [|reflexivity].
  unfold bind at 1. unfold gets at 1. cbv beta iota.
  unfold bind at 1. unfold read at 1, gets at 1. cbv beta iota.
  unfold bind at 1. unfold alloc at 1. cbv beta iota.
  unfold bind at 1. unfold modify at 1. cbv beta iota.
  unfold bind at 1.
  rewrite build_loop by (unfold wf; simpl; rewrite length_app; simpl; lia).
  simpl heap. simpl this. simpl embed. simpl fields.
  rewrite deref_app_new, insert_app_new.
  set (template := deref (heap w2) (fields (embed (this w2)))).
  destruct (rebuild template []) as [[[]|err] filled] eqn:Hre; cbv [fst snd];
    [|reflexivity].
  unfold bind at 1. unfold gets at 1. cbv beta iota.
  unfold bind at 1. unfold read at 1, gets at 1. cbv beta iota.
  match goal with
  | |- context [deref (heap ?X) (fields (embed (this ?X)))] =>
      assert (Hnow : deref (heap X) (fields (embed (this X))) = filled)
        by (simpl; apply deref_app_new);
      rewrite Hnow; clear Hnow
  end.
  destruct (Nat.eqb (List.length (List.filter has_function filled)) 0); [reflexivity|].
  unfold bind at 1. unfold gets at 1. cbv beta iota.
  unfold bind at 1.
  match goal with
  | |- context [Base.startListeners (super (this ?X))] =>
      change (Base.startListeners (super (this X)))
        with (Base.startListeners (super (this w2)))
  end.
  destruct (Nat.eqb (Base.startListeners (super (this w2))) 0); reflexivity.
Qed.

Lemma prepared_wf w : wf (prepared w).
Proof.
  unfold prepared, wf.
  destruct (Nat.eqb _ 0); simpl; rewrite length_app; simpl; lia.
Qed.

Lemma prepared_message w :
  Base.message (super (this (prepared w))) =
  Base.message (super (this (snd (inherited Base._verify (counted w))))).
Proof. unfold prepared. destruct (Nat.eqb _ 0); reflexivity. Qed.

(** The array of the embed exists from the constructor on. *)
Lemma constructor_wf (b : Base.session Element) h : wf (constructor b h).
Proof. unfold wf, constructor. simpl. rewrite length_app. simpl. lia. Qed.

Lemma setElementsPerPage_wf (max : plain) w :
  wf w -> wf (snd (setElementsPerPage max w)).
Proof. intros Hwf. destruct max; exact Hwf. Qed.

Lemma formatField_wf (n : string) (v : JS.value (Element -> plain)) (i : option bool) w :
  wf w -> wf (snd (formatField n v i w)).
Proof.
  intros Hwf. unfold formatField. destruct (negb (is_function v)); [exact Hwf|].
  unfold wf, bind, gets, read, write, modify. simpl. rewrite length_insert. exact Hwf.
Qed.

End Facts.

Section Handover.
Context {Element : Type} `{Host} `{!RichEmbedLib Element} `{!Transport (drawn Element)}.
Implicit Types (w : world Element).

(** [_loadList] up to the point where it hands over. *)
Lemma fields_loadList_own (callNavigation : bool) w :
  wf w ->
  _loadList (H2 := Base.handover _) callNavigation w =
  match fst (_drawList w) with
  | Throw err => (Throw err, snd (_drawList w))
  | Return e =>
      match answered w e with
      | Return m => (Return tt, remembered m (rendered w e))
      | Throw err => (Throw err, rendered w e)
      end
  end.
Proof. intros Hwf. apply (fields_loadList_eq (H1 := Base.handover _)), Hwf. Qed.


(** The one call of [_loadList], once the embed is drawn. *)
Lemma fields_loadList_call (callNavigation : bool) w (e : RichEmbed) :
  wf w ->
  fst (_drawList w) = Return e ->
  let r := _loadList (H2 := Base.handover _) callNavigation w in
  let d := draw (heap (snd (_drawList w))) e in
  match Base.message (super (this w)) with
  | Some old =>
      calls (snd r) = calls w ++ [Edited old (indicator (this w)) d] /\
      fst r = edit_answer (calls w) old (indicator (this w)) d /\
      Base.message (super (this (snd r))) = Some old
  | None =>
      calls (snd r) = calls w ++ [Sent (indicator (this w)) d] /\
      match send_answer (calls w) (indicator (this w)) d with
      | Return m => fst r = Return tt /\ Base.message (super (this (snd r))) = Some m
      | Throw err => fst r = Throw err /\ Base.message (super (this (snd r))) = None
      end
  end.
Proof.
  intros Hwf Hdraw r d. unfold r.
  destruct (_drawList_frame w Hwf) as (Hthis & _ & _ & _).
  rewrite (fields_loadList_own callNavigation w Hwf), Hdraw.
  unfold answered, rendered. fold d.
  destruct (Base.message (super (this w))) as [old|] eqn:Hmsg.
  - destruct (edit_answer (calls w) old (indicator (this w)) d) as [[]|err]; simpl;
      (split; [reflexivity|]; split; [reflexivity|]); rewrite Hthis; exact Hmsg.
  - destruct (send_answer (calls w) (indicator (this w)) d) as [m|err]; simpl.
    + split; [reflexivity|]. split; reflexivity.
    + split; [reflexivity|]. split; [reflexivity|]. rewrite Hthis. exact Hmsg.
Qed.

End Handover.
End FieldsEmbedFacts.

(** ** [Embeds] *)

Module EmbedsFacts.
Import JS Render Effects Embeds JSFacts.

Section Facts.
Context {E : Type} `{Host} `{!MessageEmbedLib E} `{!Transport (option E)}.
Context `{!Base.Verify E (option E)} `{!Base.Navigation (world E)}.

Implicit Types (w : world E) (s : Base.session E) (xs ys : list E).

Lemma with_self_id w : with_self (Base.self w) w = w.
Proof. destruct w; reflexivity. Qed.

Lemma embeds_build_eq w : build w = build_continue (counted w).
Proof. reflexivity. Qed.

(** The loop over the array, call by call. *)
Lemma for_of_visits (method : E -> M contents unit) xs (h : contents) :
  match for_of xs method h with
  | (Return _, h') =>
      h' = after method xs h /\
      forall (i : nat) (el : E), xs !! i = Some el ->
        returned (fst (method el (after method (take i xs) h))) = true
  | (Throw e, h') =>
      exists (i : nat) (el : E),
        xs !! i = Some el /\
        (forall (j : nat) (el' : E), (j < i)%nat -> xs !! j = Some el' ->
           returned (fst (method el' (after method (take j xs) h))) = true) /\
        method el (after method (take i xs) h) = (Throw e, h')
  end.
Proof.
  revert h. induction xs as [|x rest IH]; intros h.
  - simpl. split; [reflexivity|]. intros i el Hi. destruct i; discriminate.
  - cbn [for_of]. unfold bind.
    destruct (method x h) as [[u|e] h1] eqn:Hx.
    + specialize (IH h1).
      assert (Hafter : forall called, after method (x :: called) h = after method called h1).
      { intros called. unfold after. simpl. rewrite Hx. reflexivity. }
      destruct (for_of rest method h1) as [[u'|e] h'].
      * destruct IH as [Hh' Hall]. split; [rewrite Hafter; exact Hh'|].
        intros i el Hi. destruct i as [|i].
        -- simpl in Hi. injection Hi as <-. simpl. rewrite Hx. reflexivity.
        -- change (take (S i) (x :: rest)) with (x :: take i rest).
           rewrite Hafter. apply Hall. exact Hi.
      * destruct IH as (i & el & Hi & Hbefore & Hthrow).
        exists (S i), el. split; [exact Hi|]. split.
        -- intros j el' Hj Hel'. destruct j as [|j].
           ++ simpl in Hel'. injection Hel' as <-. simpl. rewrite Hx. reflexivity.
           ++ change (take (S j) (x :: rest)) with (x :: take j rest).
              rewrite Hafter. apply (Hbefore j el'); [lia | exact Hel'].
        -- change (take (S i) (x :: rest)) with (x :: take i rest).
           rewrite Hafter. exact Hthrow.
    + exists 0%nat, x. split; [reflexivity|]. split; [intros j el' Hj; lia|].
      exact Hx.
Qed.

Lemma for_array_visited (method : E -> M contents unit) (st : state E) :
  visited method st (for_array method st).
Proof.
  unfold visited, for_array.
  pose proof (for_of_visits method (Base.array (Base.self (this st))) (objects st)) as Hrun.
  destruct (for_of (Base.array (Base.self (this st))) method (objects st)) as [[u|e] h'].
  - split; [reflexivity|]. exact Hrun.
  - split; [reflexivity|]. exact Hrun.
Qed.

(** Behind every member of the family: the test, then the loop. *)
Lemma styled_eq (c : styling) (st : state E) :
  styled c st = if argument_given c then for_array (on_embed c) st else (Return tt, st).
Proof.
  destruct c; simpl;
    unfold setTitle, setDescription, setColor, setFooter, setImage, setThumbnail,
           setURL, setAuthor, addField;
    repeat match goal with |- context [truthy ?v] => destruct (truthy v) end;
    reflexivity.
Qed.

Lemma check_items_embeds (i : nat) xs : check_items i (map inl xs) = Return xs.
Proof.
  revert i. induction xs as [|el rest IH]; intros i; simpl; [reflexivity|].
  rewrite IH. reflexivity.
Qed.

(** The loop of [setArray] stops at the first item that is not an embed. *)
Lemma check_items_invalid (i : nat) (items : list (E + plain)) (n : nat) (v : plain) :
  items !! n = Some (inr v) ->
  (forall m : nat, (m < n)%nat -> exists el, items !! m = Some (inl el)) ->
  check_items i items = Throw (invalid_item (i + n)).
Proof.
  revert i n. induction items as [|item rest IH]; intros i n Hn Hbefore.
  - discriminate.
  - destruct n as [|n].
    + simpl in Hn. injection Hn as ->. simpl. rewrite Nat.add_0_r. reflexivity.
    + destruct (Hbefore 0%nat ltac:(lia)) as [el Hel]. simpl in Hel.
      injection Hel as ->. simpl.
      rewrite (IH (S i) n Hn).
      * replace (S i + n)%nat with (i + S n)%nat by lia. reflexivity.
      * intros m Hm. apply (Hbefore (S m)). lia.
Qed.

(** Some item that is not an embed comes first. *)
Lemma first_invalid (items : list (E + plain)) :
  (exists v, inr v ∈ items) ->
  exists (n : nat) (v : plain),
    items !! n = Some (inr v) /\
    forall m : nat, (m < n)%nat -> exists el, items !! m = Some (inl el).
Proof.
  induction items as [|item rest IH]; intros [v Hv].
  - inversion Hv.
  - destruct item as [el|v'].
    + assert (Hrest : exists v, inr v ∈ rest).
      { exists v. apply elem_of_cons in Hv as [Hv|Hv]; [discriminate | exact Hv]. }
      destruct (IH Hrest) as (n & v0 & Hn & Hbefore).
      exists (S n), v0. split; [exact Hn|].
      intros [|m] Hm; [exists el; reflexivity|]. apply Hbefore. lia.
    + exists 0%nat, v'. split; [reflexivity|]. intros m Hm. lia.
Qed.

(** The world in which [_loadList] hands over to the inherited
    [_loadList], when there is a message and its edit is accepted. *)
Lemma embeds_loadList_eq (callNavigation : bool) w :
  _loadList callNavigation w =
  match Base.message (Base.self w) with
  | None => (Throw (TypeError "Cannot read property 'edit' of undefined"), w)
  | Some m =>
      let w' := with_calls (Base.calls w ++
                  [Edited m (indicator (Base.self w)) (currentEmbed (Base.self w))]) w in
      match edit_answer (Base.calls w) m (indicator (Base.self w))
                        (currentEmbed (Base.self w)) with
      | Return _ => Base.super_loadList callNavigation w'
      | Throw err => (Throw err, w')
      end
  end.
Proof.
  unfold _loadList. unfold bind at 1. unfold gets at 1. cbv beta iota.
  unfold bind at 1. fold (indicator (Base.self w)).
  destruct (Base.message (Base.self w)) as [m|]; [|reflexivity].
  unfold message_edit.
  destruct (edit_answer _ _ _ _) as [[]|err]; reflexivity.
Qed.

(** [build], step by step. *)
Lemma embeds_build_steps w :
  build w =
  match fst (Base._verify (counted w)) with
  | Throw e => (Throw e, snd (Base._verify (counted w)))
  | Return _ => _loadList true (prepared w)
  end.
Proof.
  rewrite embeds_build_eq. unfold build_continue, prepared. unfold bind at 1.
  destruct (Base._verify (counted w)) as [[[]|err] w2]; reflexivity.
Qed.

End Facts.

Section Handover.
Context {E : Type} `{Host} `{!Transport (option E)}.
Implicit Types (w : world E).



End Handover.
End EmbedsFacts.

(** ** The reaction router *)

Module RouterFacts.
Import Router.

Section Facts.
Context {D : Type}.
Implicit Types (s : state D) (c : config D).

Lemma navigate_in_bounds (a : action) (answer : option string) s :
  in_bounds s -> in_bounds (navigate a answer s).
Proof.
  unfold in_bounds. intros Hs.
  destruct a; simpl; try lia.
  destruct answer as [text|]; [|exact Hs].
  destruct (parse_integer text) as [n|]; [|exact Hs].
  destruct (Z.leb_spec 1 n); destruct (Z.leb_spec n (pages s)); simpl; lia.
Qed.

Lemma rerender_in_bounds s : in_bounds s -> in_bounds (rerender s).
Proof. intros Hs. exact Hs. Qed.

Lemma terminate_in_bounds s : in_bounds s -> in_bounds (terminate s).
Proof. intros Hs. exact Hs. Qed.

Lemma resolve_hook c (e : string) (hook : Callback D) :
  resolve c e = Some (inr hook) -> functionHooks c !! e = Some hook.
Proof.
  unfold resolve. destruct (List.find _ actions); [discriminate|].
  destruct (functionHooks c !! e) as [h|]; simpl; [|discriminate].
  intros [= <-]. reflexivity.
Qed.

Lemma dispatch_in_bounds_at c (ev : ReactionEvent) s :
  (forall hook, resolve c (emoji ev) = Some (inr hook) -> in_bounds (hook (user ev) s)) ->
  in_bounds s -> in_bounds (dispatch c ev s).
Proof.
  intros Hhook Hs. unfold dispatch.
  destruct (phase s); try exact Hs.
  destruct (authorized c (user ev)); [|exact Hs].
  destruct (resolve c (emoji ev)) as [[a|hook]|] eqn:Hres; [| |exact Hs].
  - destruct a;
      try (apply rerender_in_bounds, navigate_in_bounds, Hs).
    apply terminate_in_bounds, Hs.
  - apply rerender_in_bounds. apply Hhook. reflexivity.
Qed.

Lemma dispatch_in_bounds c (ev : ReactionEvent) s :
  valid c -> in_bounds s -> in_bounds (dispatch c ev s).
Proof.
  intros Hc Hs. apply dispatch_in_bounds_at; [|exact Hs].
  intros hook Hres. apply resolve_hook in Hres. apply (Hc _ _ Hres), Hs.
Qed.

Lemma run_cons c (ev : ReactionEvent) (evs : list ReactionEvent) s :
  run c (ev :: evs) s = run c evs (dispatch c ev s).
Proof. reflexivity. Qed.

End Facts.
End RouterFacts.

(** ** The statements of the specification *)

Module Pagination.
Import JS Render Effects JSFacts.

Section PageCount.
Context {Element E : Type} `{Host}.
Context `{!FieldsEmbed.RichEmbedLib Element} `{!Transport (FieldsEmbed.drawn Element)}.
Context `{!Base.Verify Element (FieldsEmbed.drawn Element)}.
Context `{!Base.Navigation (FieldsEmbed.world Element)}.
Context `{!Embeds.MessageEmbedLib E} `{!Transport (option E)}.
Context `{!Base.Verify E (option E)} `{!Base.Navigation (Embeds.world E)}.

(** C1. The first thing [build] does is to set [pages].  In [FieldsEmbed],
    for [n] elements and an [elementsPerPage] that is a positive integer
    [m], [pages] becomes the ceiling of [n / m]: the quotient of
    [n + m - 1] by [m], which is the integer [k] with
    [(k - 1) * m < n <= k * m].  In [Embeds], [pages] becomes the number of
    embeds. *)
Theorem build_counts_pages :
  (forall (w : FieldsEmbed.world Element) (m : Z),
     as_integer (FieldsEmbed.elementsPerPage (FieldsEmbed.this w)) = Some m ->
     0 < m ->
     let n := Z.of_nat (List.length (Base.array (FieldsEmbed.super (FieldsEmbed.this w)))) in
     let k := (n + m - 1) / m in
     FieldsEmbed.build w = FieldsEmbed.build_continue (FieldsEmbed.counted w) /\
     Base.pages (FieldsEmbed.super (FieldsEmbed.this (FieldsEmbed.counted w))) = of_Z k /\
     (k - 1) * m < n <= k * m) /\
  (forall w : Embeds.world E,
     Embeds.build w = Embeds.build_continue (Embeds.counted w) /\
     Base.pages (Base.self (Embeds.counted w)) =
       of_nat (List.length (Base.array (Base.self w)))).
Proof.
  split.
  - intros w m Hm Hpos n k.
    apply as_integer_inv in Hm as (e & Hepp & He); [|lia].
    destruct (ceil_div_integers
                (List.length (Base.array (FieldsEmbed.super (FieldsEmbed.this w))))
                e m He Hpos) as [Hk Hbounds].
    split; [reflexivity|]. split; [|exact Hbounds].
    simpl. unfold FieldsEmbed.count_pages. rewrite Hepp. exact Hk.
  - intros w. split; reflexivity.
Qed.

End PageCount.

Section Setters.
Context {Element E : Type} `{Host}.
Context `{!FieldsEmbed.RichEmbedLib Element} `{!Transport (FieldsEmbed.drawn Element)}.
Context `{!Base.Verify Element (FieldsEmbed.drawn Element)}.
Context `{!Base.Navigation (FieldsEmbed.world Element)}.
Context `{!Embeds.MessageEmbedLib E} `{!Transport (option E)}.
Context `{!Base.Verify E (option E)} `{!Base.Navigation (Embeds.world E)}.

(** C4. [setArray] of [Embeds] throws, and leaves the session as it was, for
    anything that is not an array, for the empty array, and for an array with
    an item that is not a [MessageEmbed] (the error names the first such
    item); for a non-empty array of embeds it stores that very array and
    returns. *)
Theorem setArray_validates (w : Embeds.world E) :
  (forall v : plain,
     Embeds.setArray (@Embeds.NotArray E v) w =
     (Throw (TypeError "Cannot invoke Embeds class without a valid array to paginate."), w)) /\
  Embeds.setArray (@Embeds.AnArray E []) w =
    (Throw (TypeError "Cannot invoke Embeds class without a valid array to paginate."), w) /\
  (forall items : list (E + plain),
     (exists v, inr v ∈ items) ->
     exists (n : nat) (v : plain),
       items !! n = Some (inr v) /\
       (forall m : nat, (m < n)%nat -> exists el, items !! m = Some (inl el)) /\
       Embeds.setArray (@Embeds.AnArray E items) w = (Throw (Embeds.invalid_item n), w)) /\
  (forall els : list E,
     els <> [] ->
     Embeds.setArray (@Embeds.AnArray E (map inl els)) w =
     (Return tt, Embeds.with_self (Base.with_array els (Base.self w)) w) /\
     Base.array (Base.self (snd (Embeds.setArray (@Embeds.AnArray E (map inl els)) w))) = els).
Proof.
  split; [reflexivity|]. split; [reflexivity|]. split.
  - intros items Hbad.
    destruct (EmbedsFacts.first_invalid items Hbad) as (n & v & Hn & Hbefore).
    exists n, v. split; [exact Hn|]. split; [exact Hbefore|].
    destruct items as [|item rest]; [discriminate|].
    unfold Embeds.setArray, bind, lift.
    rewrite (EmbedsFacts.check_items_invalid 0 _ n v Hn Hbefore). reflexivity.
  - intros els Hne. destruct els as [|el rest]; [contradiction|].
    assert (Heq : Embeds.setArray (@Embeds.AnArray E (map inl (el :: rest))) w =
                  (Return tt, Embeds.with_self (Base.with_array (el :: rest) (Base.self w)) w)).
    { change (map inl (el :: rest)) with (@inl E plain el :: map inl rest).
      unfold Embeds.setArray, bind, lift.
      change (@inl E plain el :: map inl rest) with (map (@inl E plain) (el :: rest)).
      rewrite EmbedsFacts.check_items_embeds. reflexivity. }
    rewrite Heq. split; reflexivity.
Qed.

(** C5, as the code has it.  [setElementsPerPage] tests the type of its
    argument and nothing else: it throws a [TypeError], leaving the session
    as it was, for whatever is not of type number, and for every number,
    zero, negative, fractional or not a number at all, it stores the number
    and returns. *)
Theorem setElementsPerPage_checks_type (w : FieldsEmbed.world Element) :
  (forall n : number,
     FieldsEmbed.setElementsPerPage (VNumber n) w =
     (Return tt,
      FieldsEmbed.with_this (FieldsEmbed.with_elementsPerPage n (FieldsEmbed.this w)) w)) /\
  (forall max : plain,
     is_number max = false ->
     FieldsEmbed.setElementsPerPage max w =
     (Throw (TypeError "setElementsPerPage() only accepts number type."), w)).
Proof.
  split; [reflexivity|].
  intros max Hmax. destruct max; try reflexivity. discriminate.
Qed.

(** C10, as the code has it.  Each of [setTitle], [setDescription],
    [setColor], [setFooter], [setImage], [setThumbnail], [setURL],
    [setAuthor] and [addField] returns at once, the session and the embeds
    untouched, when the argument it tests is falsy (for [addField]: when
    both the name and the value are).  Otherwise it calls the method of the
    same name, with the arguments it was given, on the embeds of the array
    in order, never writing to the session itself.  When none of these calls
    throws, every index of the array has had its call and the setter
    returns; when one throws, the setter throws that error, the calls made
    so far keep their effect and the embeds further on are not called. *)
Theorem styling_is_uniform (c : Embeds.styling) (st : Embeds.state E) :
  (Embeds.argument_given c = false -> Embeds.styled c st = (Return tt, st)) /\
  (Embeds.argument_given c = true ->
     Embeds.styled c st = Embeds.for_array (Embeds.on_embed c) st /\
     Embeds.visited (Embeds.on_embed c) st (Embeds.styled c st) /\
     ((forall (i : nat) (el : E),
         Base.array (Base.self (Embeds.this st)) !! i = Some el ->
         returned (fst (Embeds.on_embed c el
           (Embeds.after (Embeds.on_embed c)
              (take i (Base.array (Base.self (Embeds.this st))))
              (Embeds.objects st)))) = true) ->
      Embeds.styled c st =
      (Return tt,
       Embeds.mkState
         (Embeds.after (Embeds.on_embed c) (Base.array (Base.self (Embeds.this st)))
            (Embeds.objects st))
         (Embeds.this st)))).
Proof.
  rewrite EmbedsFacts.styled_eq. split; intros ->; [reflexivity|].
  pose proof (EmbedsFacts.for_array_visited (Embeds.on_embed c) st) as Hvisited.
  split; [reflexivity|]. split; [exact Hvisited|].
  intros Hall. unfold Embeds.visited in Hvisited.
  destruct (Embeds.for_array (Embeds.on_embed c) st) as [[[]|e] [h' w']].
  - cbn [fst snd Embeds.this Embeds.objects] in Hvisited.
    destruct Hvisited as (-> & -> & _). reflexivity.
  - cbn [fst snd Embeds.this Embeds.objects] in Hvisited.
    destruct Hvisited as (_ & i & el & Hi & _ & Hthrow).
    specialize (Hall i el Hi). rewrite Hthrow in Hall. discriminate.
Qed.

End Setters.

Section Pages.
Context {Element E : Type} `{Host}.
Context `{!FieldsEmbed.RichEmbedLib Element} `{!Transport (FieldsEmbed.drawn Element)}.
Context `{!Base.Verify Element (FieldsEmbed.drawn Element)}.
Context `{!Base.Navigation (FieldsEmbed.world Element)}.
Context `{!Embeds.MessageEmbedLib E} `{!Transport (option E)}.
Context `{!Base.Verify E (option E)} `{!Base.Navigation (Embeds.world E)}.

(** C3. On page [p >= 1] with [e > 0] elements per page, [elementList] of
    [FieldsEmbed] is the run of the array from index [(p - 1) * e] up to, not
    including, [min (p * e) (length array)], in order, and that run is what a
    formatted field is drawn from; [currentEmbed] of [Embeds] is the item at
    index [p - 1], which exists when [p] is at most the length of the
    array. *)
Theorem page_content :
  (forall (s : FieldsEmbed.session Element) (p e : Z),
     as_integer (Base.page (FieldsEmbed.super s)) = Some p ->
     as_integer (FieldsEmbed.elementsPerPage s) = Some e ->
     1 <= p -> 0 < e ->
     let xs := Base.array (FieldsEmbed.super s) in
     let first := Z.to_nat ((p - 1) * e) in
     let last := Z.to_nat (Z.min (p * e) (Z.of_nat (List.length xs))) in
     FieldsEmbed.elementList s = take (last - first) (drop first xs) /\
     (forall i : nat,
        FieldsEmbed.elementList s !! i =
        if decide (first + i < last)%nat then xs !! (first + i)%nat else None) /\
     (forall (f : FieldsEmbed.Field Element) (g : Element -> plain),
        FieldsEmbed.value f = VFunction g ->
        FieldsEmbed.drawn_value s f =
        VString (join newline (map g (take (last - first) (drop first xs)))))) /\
  (forall (s : Base.session E) (p : Z),
     as_integer (Base.page s) = Some p ->
     1 <= p ->
     Embeds.currentEmbed s = Base.array s !! Z.to_nat (p - 1) /\
     (p <= Z.of_nat (List.length (Base.array s)) -> is_Some (Embeds.currentEmbed s))).
Proof.
  split.
  - intros s p e Hp He Hp1 He0 xs first last.
    assert (Hlist : FieldsEmbed.elementList s = take (last - first) (drop first xs)).
    { unfold FieldsEmbed.elementList. cbv zeta.
      pose proof (mul_integer _ _ _ _ (pred_integer _ _ Hp) He) as Ha.
      pose proof (add_integer _ _ _ _ Ha He) as Hb.
      rewrite (slice_window _ _ _ _ _ Ha Hb) by nia.
      fold xs. unfold first, last.
      replace ((p - 1) * e + e) with (p * e) by ring. f_equal.
      rewrite Z2Nat.inj_sub by nia. reflexivity. }
    split; [exact Hlist|]. split.
    + intros i. rewrite Hlist, window_lookup.
      destruct (decide (i < last - first)%nat), (decide (first + i < last)%nat);
        try reflexivity; lia.
    + intros f g Hf. unfold FieldsEmbed.drawn_value. rewrite Hf, Hlist. reflexivity.
  - intros s p Hp Hp1.
    assert (Hcur : Embeds.currentEmbed s = Base.array s !! Z.to_nat (p - 1)).
    { unfold Embeds.currentEmbed. apply index_integer; [|lia].
      apply pred_integer, Hp. }
    split; [exact Hcur|].
    intros Hlen. rewrite Hcur. apply lookup_lt_is_Some. lia.
Qed.

(** C9. With the indicator off, or on with exactly one page, [shouldIndicate]
    is empty; with the indicator on and more than one page it is the text
    "Page p of n", the two numbers printed as a template literal prints them,
    in decimal when they are integers below 2^53 in size.  In both modes this
    is the content of the call that [_loadList] makes. *)
Theorem page_indicator (page pages : number) :
  shouldIndicate false page pages = None /\
  (num_eqb pages (of_Z 1) = true -> shouldIndicate true page pages = None) /\
  (num_ltb (of_Z 1) pages = true ->
     shouldIndicate true page pages =
     Some ("Page " +:+ number_text page +:+ " of " +:+ number_text pages) /\
     forall p n : Z,
       as_integer page = Some p -> as_integer pages = Some n ->
       Z.abs p < 2 ^ 53 -> Z.abs n < 2 ^ 53 ->
       shouldIndicate true page pages =
       Some ("Page " +:+ Z_text p +:+ " of " +:+ Z_text n)) /\
  (forall (callNavigation : bool) (w : FieldsEmbed.world Element) (e : FieldsEmbed.RichEmbed),
     Base.page (FieldsEmbed.super (FieldsEmbed.this w)) = page ->
     Base.pages (FieldsEmbed.super (FieldsEmbed.this w)) = pages ->
     FieldsEmbed.wf w ->
     fst (FieldsEmbed._drawList w) = Return e ->
     exists w' c,
       FieldsEmbed.calls w' = FieldsEmbed.calls w ++ [c] /\
       content_of c =
         shouldIndicate (Base.pageIndicator (FieldsEmbed.super (FieldsEmbed.this w)))
                        page pages /\
       ((exists err, FieldsEmbed._loadList callNavigation w = (Throw err, w')) \/
        (exists m, FieldsEmbed._loadList callNavigation w =
                   Base.super_loadList callNavigation (FieldsEmbed.remembered m w')))) /\
  (forall (callNavigation : bool) (w : Embeds.world E) (m : nat),
     Base.page (Base.self w) = page ->
     Base.pages (Base.self w) = pages ->
     Base.message (Base.self w) = Some m ->
     exists w' c,
       Base.calls w' = Base.calls w ++ [c] /\
       content_of c = shouldIndicate (Base.pageIndicator (Base.self w)) page pages /\
       ((exists err, Embeds._loadList callNavigation w = (Throw err, w')) \/
        Embeds._loadList callNavigation w = Base.super_loadList callNavigation w')).
Proof.
  split; [reflexivity|]. split.
  { intros Hone. unfold shouldIndicate. rewrite Hone. reflexivity. }
  split.
  { intros Hmore.
    assert (Hne : num_eqb pages (of_Z 1) = false).
    { destruct pages as [|neg| |q]; try reflexivity.
      unfold num_ltb, num_eqb, of_Z in *.
      apply negb_true_iff in Hmore.
      destruct (Qeq_bool q (inject_Z 1)) eqn:Heq; [|reflexivity].
      apply Qeq_bool_iff in Heq.
      assert (Hle : (q <= inject_Z 1)%Q) by (rewrite Heq; apply Qle_refl).
      apply Qle_bool_iff in Hle. congruence. }
    unfold shouldIndicate. rewrite Hne. split; [reflexivity|].
    intros p n Hp Hn Hpsize Hnsize.
    assert (Htext : forall (a : number) (z : Z),
              as_integer a = Some z -> Z.abs z < 2 ^ 53 -> number_text a = Z_text z).
    { intros a z Ha Hz. destruct a as [| | |x]; try discriminate.
      - injection Ha as <-. reflexivity.
      - unfold number_text. rewrite Ha.
        destruct (Z.ltb_spec (Z.abs z) (2 ^ 53)); [reflexivity | lia]. }
    rewrite (Htext page p Hp Hpsize), (Htext pages n Hn Hnsize). reflexivity. }
  split.
  - intros cn w e <- <- Hwf Hdraw.
    rewrite (FieldsEmbedFacts.fields_loadList_eq cn w Hwf), Hdraw.
    exists (FieldsEmbed.rendered w e).
    assert (Hcall : exists c,
      FieldsEmbed.calls (FieldsEmbed.rendered w e) = FieldsEmbed.calls w ++ [c] /\
      content_of c = shouldIndicate
        (Base.pageIndicator (FieldsEmbed.super (FieldsEmbed.this w)))
        (Base.page (FieldsEmbed.super (FieldsEmbed.this w)))
        (Base.pages (FieldsEmbed.super (FieldsEmbed.this w)))).
    { unfold FieldsEmbed.rendered, FieldsEmbed.indicator.
      destruct (Base.message _); eexists; split; reflexivity. }
    destruct Hcall as (c & Hc & Hcontent). exists c.
    split; [exact Hc|]. split; [exact Hcontent|].
    destruct (FieldsEmbed.answered w e) as [m|err].
    + right. exists m. reflexivity.
    + left. exists err. reflexivity.
  - intros cn w m <- <- Hm.
    rewrite (EmbedsFacts.embeds_loadList_eq cn w), Hm.
    eexists. eexists. split; [|split].
    3: { destruct (edit_answer _ _ _ _) as [[]|err].
         - right. reflexivity.
         - left. exists err. reflexivity. }
    + reflexivity.
    + reflexivity.
Qed.

End Pages.

Section Rendering.
Context {Element E : Type} `{Host}.
Context `{!FieldsEmbed.RichEmbedLib Element} `{!Transport (FieldsEmbed.drawn Element)}.
Context `{!Base.Verify Element (FieldsEmbed.drawn Element)}.
Context `{!Base.Navigation (FieldsEmbed.world Element)}.
Context `{!Embeds.MessageEmbedLib E} `{!Transport (option E)}.
Context `{!Base.Verify E (option E)} `{!Base.Navigation (Embeds.world E)}.

(** C6. When no field of the template holds a function, [build] of
    [FieldsEmbed] ends in an error, and it has made no call of its own: the
    calls are those [_verify] left.  The error is that of [_verify] or of an
    [addField] that refuses a field, and otherwise the one that asks for a
    formatted field. *)
Theorem build_needs_formatted_field (w : FieldsEmbed.world Element) :
  Forall (fun f => FieldsEmbed.has_function f = false)
         (FieldsEmbed.deref (FieldsEmbed.heap w)
            (FieldsEmbed.fields (FieldsEmbed.embed (FieldsEmbed.this w)))) ->
  let verified := FieldsEmbed.inherited Base._verify (FieldsEmbed.counted w) in
  let template := FieldsEmbed.deref (FieldsEmbed.heap w)
                    (FieldsEmbed.fields (FieldsEmbed.embed (FieldsEmbed.this w))) in
  returned (fst (FieldsEmbed.build w)) = false /\
  FieldsEmbed.calls (snd (FieldsEmbed.build w)) = FieldsEmbed.calls (snd verified) /\
  (fst verified = Return tt ->
   fst (FieldsEmbed.add_all FieldsEmbed.value template []) = Return tt ->
   fst (FieldsEmbed.build w) = Throw (Error
     "Cannot invoke FieldsEmbed class without at least one formatted field to paginate.")).
Proof.
  intros Hstatic verified template.
  rewrite FieldsEmbedFacts.fields_build_eq.
  rewrite (FieldsEmbedFacts.build_continue_static (FieldsEmbed.counted w) Hstatic).
  change (FieldsEmbed.deref (FieldsEmbed.heap (FieldsEmbed.counted w))
            (FieldsEmbed.fields (FieldsEmbed.embed (FieldsEmbed.this (FieldsEmbed.counted w)))))
    with template.
  fold verified. simpl.
  destruct (fst verified) as [[]|err]; simpl.
  - destruct (fst (FieldsEmbed.add_all FieldsEmbed.value template [])) as [[]|err]; simpl.
    + repeat split.
    + repeat split. intros _ Habs. discriminate.
  - repeat split. intros Habs. discriminate.
Qed.


(** C8. [_drawList] leaves the session as it found it: its members, among
    them the array, [page], [pages], [elementsPerPage] and the template, the
    fields of the template, every other array of the store, and the calls
    made so far.  Drawing again from the world it leaves gives an embed equal
    to the first, or fails with the same error. *)
Theorem drawList_is_pure (w : FieldsEmbed.world Element) :
  FieldsEmbed.wf w ->
  let w' := snd (FieldsEmbed._drawList w) in
  FieldsEmbed.this w' = FieldsEmbed.this w /\
  FieldsEmbed.calls w' = FieldsEmbed.calls w /\
  FieldsEmbed.deref (FieldsEmbed.heap w')
      (FieldsEmbed.fields (FieldsEmbed.embed (FieldsEmbed.this w'))) =
    FieldsEmbed.deref (FieldsEmbed.heap w)
      (FieldsEmbed.fields (FieldsEmbed.embed (FieldsEmbed.this w))) /\
  (forall r : nat, (r < List.length (FieldsEmbed.heap w))%nat ->
     FieldsEmbed.heap w' !! r = FieldsEmbed.heap w !! r) /\
  FieldsEmbed.wf w' /\
  match fst (FieldsEmbed._drawList w), fst (FieldsEmbed._drawList w') with
  | Return e1, Return e2 =>
      FieldsEmbed.draw (FieldsEmbed.heap w') e1 =
      FieldsEmbed.draw (FieldsEmbed.heap (snd (FieldsEmbed._drawList w'))) e2
  | Throw err1, Throw err2 => err1 = err2
  | _, _ => False
  end.
Proof.
  intros Hwf w'.
  destruct (FieldsEmbedFacts._drawList_frame w Hwf) as (Hthis & Hcalls & Hheap & Hwf').
  fold w' in Hthis, Hcalls, Hheap, Hwf'.
  assert (Hderef : FieldsEmbed.deref (FieldsEmbed.heap w')
      (FieldsEmbed.fields (FieldsEmbed.embed (FieldsEmbed.this w'))) =
    FieldsEmbed.deref (FieldsEmbed.heap w)
      (FieldsEmbed.fields (FieldsEmbed.embed (FieldsEmbed.this w)))).
  { rewrite Hthis. unfold FieldsEmbed.deref. rewrite Hheap by exact Hwf. reflexivity. }
  repeat (split; [assumption|]).
  assert (Hsame : FieldsEmbed.drawing w' = FieldsEmbed.drawing w).
  { unfold FieldsEmbed.drawing. rewrite Hderef, Hthis. reflexivity. }
  destruct (fst (FieldsEmbed._drawList w)) as [e1|err1] eqn:Hd1;
    destruct (fst (FieldsEmbed._drawList w')) as [e2|err2] eqn:Hd2.
  - pose proof (FieldsEmbedFacts._drawList_drawn w e1 Hwf Hd1) as Hdrawn1.
    pose proof (FieldsEmbedFacts._drawList_drawn w' e2 Hwf' Hd2) as Hdrawn2.
    change (snd (FieldsEmbed._drawList w)) with w' in Hdrawn1.
    rewrite Hdrawn1, Hdrawn2, Hsame, Hthis. reflexivity.
  - rewrite (FieldsEmbedFacts._drawList_eq w Hwf) in Hd1.
    rewrite (FieldsEmbedFacts._drawList_eq w' Hwf') in Hd2.
    simpl in H1, H2. rewrite Hsame in Hd2.
    destruct (fst (FieldsEmbed.drawing w)); discriminate.
  - rewrite (FieldsEmbedFacts._drawList_eq w Hwf) in Hd1.
    rewrite (FieldsEmbedFacts._drawList_eq w' Hwf') in Hd2.
    simpl in H1, H2. rewrite Hsame in Hd2.
    destruct (fst (FieldsEmbed.drawing w)); discriminate.
  - rewrite (FieldsEmbedFacts._drawList_eq w Hwf) in Hd1.
    rewrite (FieldsEmbedFacts._drawList_eq w' Hwf') in Hd2.
    simpl in H1, H2. rewrite Hsame in Hd2.
    destruct (fst (FieldsEmbed.drawing w)); [discriminate|].
    cbv [fst] in Hd1, Hd2. congruence.
Qed.

End Rendering.

Section Routing.
Context {D : Type}.

(** C2. [1 <= page <= pages] survives every dispatch: whatever navigation
    action the event resolves to, a jump with its follow-up text included,
    when it resolves to nothing, and, for a function hook, as soon as the
    hook itself leaves the two consistent.  So in a session whose hooks keep
    to that contract it holds after each event of a run, and at its end. *)
Theorem page_stays_in_bounds (c : Router.config D) (s : Router.state D) :
  Router.in_bounds s ->
  (forall ev : Router.ReactionEvent,
     (forall hook, Router.resolve c (Router.emoji ev) = Some (inr hook) ->
        Router.in_bounds (hook (Router.user ev) s)) ->
     Router.in_bounds (Router.dispatch c ev s)) /\
  (Router.valid c ->
   forall evs : list Router.ReactionEvent,
     Forall Router.in_bounds (Router.history c evs s) /\
     Router.in_bounds (Router.run c evs s)).
Proof.
  intros Hs. split.
  - intros ev Hhook. apply RouterFacts.dispatch_in_bounds_at; assumption.
  - intros Hc evs. revert s Hs. induction evs as [|ev rest IH]; intros s Hs.
    + split; [constructor | exact Hs].
    + pose proof (RouterFacts.dispatch_in_bounds c ev s Hc Hs) as Hnext.
      destruct (IH _ Hnext) as [Hhist Hrun].
      split; [constructor; assumption|].
      rewrite RouterFacts.run_cons. exact Hrun.
Qed.

End Routing.

End Pagination.

(** ** The statements on the sample session *)

Module Scenarios.
Import JS Render Effects JSFacts Pagination.

#[local] Existing Instance Sample.host.
#[local] Existing Instance Sample.rich.
#[local] Existing Instance Sample.transport.
#[local] Existing Instance Sample.verify.
#[local] Existing Instance Sample.navigation.
#[local] Existing Instance Sample.message_embed.

(** Twenty-five elements, ten per page: three pages. *)
Lemma build_counts_pages_witness :
  FieldsEmbed.build (Sample.fields_world (seq 0 25) (of_Z 10)) =
  FieldsEmbed.build_continue (FieldsEmbed.counted (Sample.fields_world (seq 0 25) (of_Z 10))) /\
  Base.pages (FieldsEmbed.super (FieldsEmbed.this
    (FieldsEmbed.counted (Sample.fields_world (seq 0 25) (of_Z 10))))) = of_Z 3 /\
  (3 - 1) * 10 < 25 <= 3 * 10.
Proof.
  exact (proj1 (build_counts_pages (E := Sample.embed))
               (Sample.fields_world (seq 0 25) (of_Z 10)) 10
               eq_refl eq_refl).
Defined.

Example pages_25_by_10 :
  Base.pages (FieldsEmbed.super (FieldsEmbed.this
    (FieldsEmbed.counted (Sample.fields_world (seq 0 25) (of_Z 10))))) = of_Z 3.
Proof. reflexivity. Qed.

(** An array with a string in second place is refused for that item; two
    embeds are stored. *)
Lemma setArray_validates_witness :
  (exists (n : nat) (v : plain),
     [inl Sample.blank; inr (VString "embed")] !! n = Some (inr v) /\
     (forall m : nat, (m < n)%nat ->
        exists el : Sample.embed,
          [inl Sample.blank; inr (VString "embed" : plain)] !! m = Some (inl el)) /\
     Embeds.setArray (@Embeds.AnArray Sample.embed [inl Sample.blank; inr (VString "embed")])
       (Sample.embeds_world []) =
     (Throw (Embeds.invalid_item n), Sample.embeds_world [])) /\
  (Embeds.setArray (@Embeds.AnArray Sample.embed (map inl [Sample.blank; Sample.titled "two"]))
     (Sample.embeds_world []) =
   (Return tt, Sample.embeds_world [Sample.blank; Sample.titled "two"]) /\
   Base.array (Base.self (snd
     (Embeds.setArray (@Embeds.AnArray Sample.embed (map inl [Sample.blank; Sample.titled "two"]))
        (Sample.embeds_world [])))) = [Sample.blank; Sample.titled "two"]).
Proof.
  pose proof (setArray_validates (Sample.embeds_world [])) as (_ & _ & Hbad & Hgood).
  split.
  - apply Hbad. exists (VString "embed"). apply elem_of_cons. right. apply elem_of_cons. left. reflexivity.
  - apply (Hgood [Sample.blank; Sample.titled "two"]). discriminate.
Defined.

(** A string is refused. *)
Lemma setElementsPerPage_checks_type_witness :
  FieldsEmbed.setElementsPerPage (VString "ten") (Sample.fields_world [1; 2; 3]%nat (of_Z 10)) =
  (Throw (TypeError "setElementsPerPage() only accepts number type."),
   Sample.fields_world [1; 2; 3]%nat (of_Z 10)).
Proof.
  exact (proj2 (setElementsPerPage_checks_type (Sample.fields_world [1; 2; 3]%nat (of_Z 10)))
               (VString "ten") eq_refl).
Defined.

(** C5 as written fails: zero, a negative number, a fraction and NaN are
    all accepted and stored. *)
Lemma setElementsPerPage_accepts_zero :
  let w := Sample.fields_world [1; 2; 3]%nat (of_Z 10) in
  (forall n : number,
     In n [of_Z 0; of_Z (-3); Fin (5 # 2); NaN] ->
     positive_integer (@VNumber unit n) = false /\
     fst (FieldsEmbed.setElementsPerPage (VNumber n) w) = Return tt /\
     FieldsEmbed.elementsPerPage (FieldsEmbed.this
       (snd (FieldsEmbed.setElementsPerPage (VNumber n) w))) = n) /\
  ~ (forall (max : plain) (w' : FieldsEmbed.world nat),
       positive_integer max = false ->
       returned (fst (FieldsEmbed.setElementsPerPage max w')) = false).
Proof.
  intros w. split.
  - intros n Hn. simpl in Hn.
    destruct Hn as [<-|[<-|[<-|[<-|[]]]]]; repeat split; reflexivity.
  - intros Hclaim. specialize (Hclaim (VNumber (of_Z 0)) w eq_refl). discriminate.
Qed.

(** An empty title changes nothing; a title is set on both embeds of the
    array. *)
Lemma styling_is_uniform_witness :
  Embeds.styled (Embeds.SetTitle (VString ""))
    (Sample.gallery [Sample.blank; Sample.titled "two"] [0; 1]%nat) =
    (Return tt, Sample.gallery [Sample.blank; Sample.titled "two"] [0; 1]%nat) /\
  Embeds.styled (Embeds.SetTitle (VString "Hello"))
    (Sample.gallery [Sample.blank; Sample.titled "two"] [0; 1]%nat) =
    (Return tt, Sample.gallery [Sample.titled "Hello"; Sample.titled "Hello"] [0; 1]%nat).
Proof.
  split.
  - exact (proj1 (styling_is_uniform (Embeds.SetTitle (VString ""))
                    (Sample.gallery [Sample.blank; Sample.titled "two"] [0; 1]%nat)) eq_refl).
  - apply (proj2 (proj2 (proj2 (styling_is_uniform (Embeds.SetTitle (VString "Hello"))
                    (Sample.gallery [Sample.blank; Sample.titled "two"] [0; 1]%nat)) eq_refl))).
    intros i el Hi. destruct i as [|[|i]]; simpl in Hi.
    + injection Hi as <-. reflexivity.
    + injection Hi as <-. reflexivity.
    + discriminate.
Defined.

(** C10 as written fails: [addField] with an empty name and a value goes on
    to the embeds, since the value is truthy, and the first embed refuses
    the empty name; the setter throws instead of returning the session, and
    no embed has the field. *)
Lemma addField_refused_by_embed :
  let st := Sample.gallery [Sample.blank; Sample.blank] [0; 1]%nat in
  let c := Embeds.AddField (VString "") (VString "x") None in
  Embeds.argument_given c = true /\
  Embeds.styled c st =
    (Throw (RangeError "MessageEmbed field names may not be empty."), st) /\
  ~ (forall (c' : Embeds.styling) (st' : Embeds.state nat),
       Embeds.argument_given c' = true ->
       returned (fst (Embeds.styled c' st')) = true).
Proof.
  intros st c. split; [reflexivity|]. split; [reflexivity|].
  intros Hclaim. specialize (Hclaim c st eq_refl). discriminate.
Qed.

(** An embed that sits at both indices of the array gets the field twice. *)
Example addField_on_shared_embed :
  Embeds.styled (Embeds.AddField (VString "a") (VString "b") None)
    (Sample.gallery [Sample.blank] [0; 0]%nat) =
  (Return tt,
   Sample.gallery
     [Sample.mkEmbed None None None None None None None None None
        [("a", "b", false); ("a", "b", false)]]
     [0; 0]%nat).
Proof. reflexivity. Qed.

(** Page 3 of 25 numbers, ten per page, holds the numbers 20 to 24; page 2
    of two embeds is the second. *)
Lemma page_content_witness :
  FieldsEmbed.elementList
    (FieldsEmbed.this (Sample.listing (seq 0 25) (of_Z 3) (of_Z 10) None)) =
    [20; 21; 22; 23; 24]%nat /\
  Embeds.currentEmbed
    (Base.self (Sample.album [Sample.titled "one"; Sample.titled "two"] (of_Z 2) None)) =
    Some (Sample.titled "two").
Proof.
  split.
  - exact (proj1 (proj1 (page_content (Element := nat) (E := Sample.embed))
             (FieldsEmbed.this (Sample.listing (seq 0 25) (of_Z 3) (of_Z 10) None))
             3 10 eq_refl eq_refl ltac:(lia) ltac:(lia))).
  - exact (proj1 (proj2 (page_content (Element := nat) (E := Sample.embed))
             (Base.self (Sample.album [Sample.titled "one"; Sample.titled "two"] (of_Z 2) None))
             2 eq_refl ltac:(lia))).
Defined.

(** Page 2 of 3 is announced as such; a single page is not announced. *)
Lemma page_indicator_witness :
  shouldIndicate true (of_Z 2) (of_Z 3) = Some "Page 2 of 3" /\
  shouldIndicate true (of_Z 1) (of_Z 1) = None.
Proof.
  split.
  - exact (proj2 (proj1 (proj2 (proj2 (page_indicator (Element := nat) (E := Sample.embed)
             (of_Z 2) (of_Z 3)))) eq_refl) 2 3 eq_refl eq_refl eq_refl eq_refl).
  - exact (proj1 (proj2 (page_indicator (Element := nat) (E := Sample.embed)
             (of_Z 1) (of_Z 1))) eq_refl).
Defined.

(** A template with a field of text only: [build] asks for a formatted
    field and has called nobody. *)
Lemma build_needs_formatted_field_witness :
  returned (fst (FieldsEmbed.build (Sample.unformatted [1; 2; 3]%nat))) = false /\
  FieldsEmbed.calls (snd (FieldsEmbed.build (Sample.unformatted [1; 2; 3]%nat))) = [] /\
  fst (FieldsEmbed.build (Sample.unformatted [1; 2; 3]%nat)) = Throw (Error
    "Cannot invoke FieldsEmbed class without at least one formatted field to paginate.").
Proof.
  pose proof (build_needs_formatted_field (Sample.unformatted [1; 2; 3]%nat)
                ltac:(repeat constructor)) as (Hthrows & Hcalls & Herror).
  split; [exact Hthrows|]. split; [exact Hcalls|].
  apply Herror; reflexivity.
Defined.


(** Drawing twice from a sample session. *)
Lemma drawList_is_pure_witness :
  let w := Sample.listing (seq 0 25) (of_Z 3) (of_Z 10) None in
  FieldsEmbed.this (snd (FieldsEmbed._drawList w)) = FieldsEmbed.this w /\
  FieldsEmbed.calls (snd (FieldsEmbed._drawList w)) = FieldsEmbed.calls w.
Proof.
  intros w.
  destruct (drawList_is_pure w ltac:(unfold FieldsEmbed.wf; simpl; lia))
    as (Hthis & Hcalls & _).
  split; [exact Hthis | exact Hcalls].
Defined.

Lemma bindings_valid : Router.valid Sample.bindings.
Proof.
  intros e hook Hlook u s Hs.
  unfold Sample.bindings in Hlook. cbn [Router.functionHooks] in Hlook.
  apply lookup_singleton_Some in Hlook as [_ <-]. exact Hs.
Defined.

(** Two presses forward from page 1 of 3 reach page 3, a third stays
    there, and the page is in bounds after each. *)
Lemma page_stays_in_bounds_witness :
  let evs := [Sample.press "forward" "U1"; Sample.press "forward" "U1";
              Sample.press "forward" "U1"; Sample.press "count" "U1"] in
  Forall Router.in_bounds (Router.history Sample.bindings evs Sample.listening) /\
  Router.in_bounds (Router.run Sample.bindings evs Sample.listening).
Proof.
  intros evs.
  exact (proj2 (page_stays_in_bounds Sample.bindings Sample.listening
                  ltac:(unfold Router.in_bounds; simpl; lia)) bindings_valid evs).
Defined.

Example forward_thrice :
  map Router.page (Router.history Sample.bindings
    [Sample.press "forward" "U1"; Sample.press "forward" "U1"; Sample.press "forward" "U1"]
    Sample.listening) = [2; 3; 3].
Proof. vm_compute. reflexivity. Qed.

Example jump_to_2 :
  Router.page (Router.dispatch Sample.bindings (Router.mkEvent "jump" "U1" (Some "2"))
                 Sample.listening) = 2.
Proof. vm_compute. reflexivity. Qed.

Example unauthorized_forward :
  Router.dispatch Sample.bindings (Sample.press "forward" "U2") Sample.listening =
  Sample.listening.
Proof. vm_compute. reflexivity. Qed.

Example hook_counts_once :
  Router.data (Router.dispatch Sample.bindings (Sample.press "count" "U1") Sample.listening) =
  1%nat.
Proof. vm_compute. reflexivity. Qed.

(** Built on page 3 without a message, the sample session sends one embed,
    announced as page 3 of 3, whose formatted field lists the numbers 20 to
    24. *)
Example build_listing_page_3 :
  fst (FieldsEmbed.build (Sample.listing (seq 0 25) (of_Z 3) (of_Z 10) None)) = Return tt /\
  FieldsEmbed.calls (snd (FieldsEmbed.build (Sample.listing (seq 0 25) (of_Z 3) (of_Z 10) None))) =
  [Sent (Some "Page 3 of 3")
     (FieldsEmbed.mkDrawn (Some "Numbers") None None None
        [FieldsEmbed.mkField "Number"
           (VString (String.concat newline ["20"; "21"; "22"; "23"; "24"])) true;
         FieldsEmbed.mkField "About" (VString "every number") false])].
Proof. vm_compute. split; reflexivity. Qed.

End Scenarios.

(* ------------------------------------------------------------------------- *)
(** * Further properties of the two classes *)

(** ** Pages of [FieldsEmbed] as windows of the array *)

Module PagingFacts.
Import JS Render Effects FieldsEmbed JSFacts.

Section Facts.
Context {Element : Type}.
Implicit Types (s : session Element) (xs : list Element).

(** [elementList] on an integer page with an integer number of elements per
    page, whatever their signs. *)
Lemma elementList_integers s (p e : Z) :
  as_integer (Base.page (super s)) = Some p ->
  as_integer (elementsPerPage s) = Some e ->
  let len := Z.of_nat (List.length (Base.array (super s))) in
  let k := clamp_index len (Some (inl ((p - 1) * e))) in
  let final := clamp_index len (Some (inl (p * e))) in
  elementList s =
  take (Z.to_nat (Z.max (final - k) 0)) (drop (Z.to_nat k) (Base.array (super s))).
Proof.
  intros Hp He. unfold elementList. cbv zeta.
  pose proof (mul_integer _ _ _ _ (pred_integer _ _ Hp) He) as Ha.
  pose proof (add_integer _ _ _ _ Ha He) as Hb.
  replace ((p - 1) * e + e) with (p * e) in Hb by ring.
  apply (slice_integers _ _ _ _ _ Ha Hb).
Qed.

(** On a page from 1 on, with a positive number per page: at most that many
    elements from where the page starts. *)
Lemma elementList_chunk s (p e : Z) :
  as_integer (Base.page (super s)) = Some p ->
  as_integer (elementsPerPage s) = Some e ->
  1 <= p -> 0 < e ->
  elementList s = take (Z.to_nat e) (drop (Z.to_nat ((p - 1) * e)) (Base.array (super s))).
Proof.
  intros Hp He Hp1 He0. rewrite (elementList_integers s p e Hp He).
  unfold clamp_index.
  destruct (Z.ltb_spec ((p - 1) * e) 0) as [?|_]; [nia|].
  destruct (Z.ltb_spec (p * e) 0) as [?|_]; [nia|].
  set (xs := Base.array (super s)).
  destruct (Z.le_gt_cases ((p - 1) * e) (Z.of_nat (List.length xs))) as [Hle|Hgt].
  - rewrite (Z.min_l _ _ Hle).
    destruct (Z.le_gt_cases (p * e) (Z.of_nat (List.length xs))) as [Hle'|Hgt'].
    + rewrite (Z.min_l _ _ Hle'). f_equal. nia.
    + rewrite (Z.min_r (p * e)) by lia.
      rewrite !take_ge; [reflexivity| |]; rewrite length_drop; nia.
  - rewrite (Z.min_r ((p - 1) * e)) by lia. rewrite Nat2Z.id.
    rewrite !drop_ge by lia. rewrite !take_nil. reflexivity.
Qed.

(** Consecutive chunks of a list, put together. *)
Lemma chunks_concat xs (e k : nat) :
  concat (map (fun i : nat => take e (drop (i * e) xs)) (seq 0 k)) = take (k * e) xs.
Proof.
  induction k as [|k IH].
  - simpl. rewrite take_0. reflexivity.
  - rewrite seq_S, map_app, concat_app, IH. simpl.
    rewrite app_nil_r, take_take_drop. f_equal. lia.
Qed.

Lemma on_page_integer s (p : Z) :
  as_integer (Base.page (super (on_page (of_Z p) s))) = Some p.
Proof. apply as_integer_of_Z. Qed.

(** The first statement of [build] for an integer number per page. *)
Lemma count_pages_integer s (e : Z) :
  as_integer (elementsPerPage s) = Some e -> 0 < e ->
  count_pages s =
  of_Z ((Z.of_nat (List.length (Base.array (super s))) + e - 1) / e).
Proof.
  intros He He0. apply as_integer_inv in He as (y & Hy & Hye); [|lia].
  unfold count_pages. rewrite Hy.
  apply (ceil_div_integers _ y e Hye He0).
Qed.

Lemma take_one_drop xs (i : nat) : take 1 (drop i xs) = option_list (xs !! i).
Proof.
  rewrite <- (Nat.add_0_r i) at 2. rewrite <- lookup_drop.
  destruct (drop i xs); reflexivity.
Qed.

End Facts.
End PagingFacts.

(** ** What the setters and the render do besides *)

Module Behaviour.
Import JS Render Effects JSFacts PagingFacts.

Section Paging.
Context {Element : Type}.

(** X1. The pages of [FieldsEmbed] cut the array into consecutive pieces:
    with a positive integer number of elements per page, the element lists
    of the pages 1 to [pages], one after the other, are the array, where
    [pages] is what [build] computes. *)
Theorem pages_cover_array (s : FieldsEmbed.session Element) (e : Z) :
  as_integer (FieldsEmbed.elementsPerPage s) = Some e ->
  0 < e ->
  let n := Z.of_nat (List.length (Base.array (FieldsEmbed.super s))) in
  let k := Z.to_nat ((n + e - 1) / e) in
  FieldsEmbed.count_pages s = of_nat k /\
  concat (map (fun p : nat => FieldsEmbed.elementList (FieldsEmbed.on_page (of_nat p) s))
              (seq 1 k)) =
  Base.array (FieldsEmbed.super s).
Proof.
  intros He He0 n k.
  assert (Hk0 : 0 <= (n + e - 1) / e) by (apply Z.div_pos; lia).
  split.
  - rewrite (count_pages_integer s e He He0). unfold of_nat, k.
    rewrite Z2Nat.id by exact Hk0. reflexivity.
  - rewrite <- seq_shift, map_map.
    rewrite (map_ext _ (fun i : nat =>
               take (Z.to_nat e) (drop (i * Z.to_nat e) (Base.array (FieldsEmbed.super s))))).
    + rewrite chunks_concat. apply take_ge.
      pose proof (Z.mul_div_le (n + e - 1) e He0).
      pose proof (Z.mul_succ_div_gt (n + e - 1) e He0).
      unfold k. nia.
    + intros i.
      rewrite (elementList_chunk (FieldsEmbed.on_page (of_nat (S i)) s) (Z.of_nat (S i)) e);
        [|apply on_page_integer|exact He|lia|exact He0].
      simpl. f_equal. f_equal. nia.
Qed.

(** X2. The size of a page of [FieldsEmbed], for a positive integer number
    [e] of elements per page: never more than [e]; exactly [e] before the
    last page; at least one element on every page from 1 to [pages]; none
    past the last page. *)
Theorem page_sizes (s : FieldsEmbed.session Element) (e p : Z) :
  as_integer (FieldsEmbed.elementsPerPage s) = Some e ->
  0 < e -> 1 <= p ->
  let n := Z.of_nat (List.length (Base.array (FieldsEmbed.super s))) in
  let k := (n + e - 1) / e in
  let size := Z.of_nat (List.length
                (FieldsEmbed.elementList (FieldsEmbed.on_page (of_Z p) s))) in
  size <= e /\
  (p < k -> size = e) /\
  (p <= k -> 1 <= size) /\
  (p = k -> size = n - (k - 1) * e) /\
  (k < p -> FieldsEmbed.elementList (FieldsEmbed.on_page (of_Z p) s) = []).
Proof.
  intros He He0 Hp n k size.
  pose proof (Z.mul_div_le (n + e - 1) e He0) as Hlow.
  pose proof (Z.mul_succ_div_gt (n + e - 1) e He0) as Hhigh.
  fold k in Hlow, Hhigh.
  assert (Hlist := elementList_chunk (FieldsEmbed.on_page (of_Z p) s) p e
                     (on_page_integer s p) He Hp He0).
  simpl in Hlist.
  assert (Hsize : size = Z.min e (Z.max (n - (p - 1) * e) 0)).
  { unfold size. rewrite Hlist, length_take, length_drop. unfold n. nia. }
  repeat split.
  - lia.
  - intros Hlt. nia.
  - intros Hle. nia.
  - intros ->. nia.
  - intros Hgt. rewrite Hlist.
    rewrite drop_ge; [apply take_nil|]. unfold n in *. nia.
Qed.

(** X3. Pages below 1 of [FieldsEmbed]: page 0 is empty, and a negative
    page reads from the end of the array, as [slice] does with negative
    indices: page [p < 0] holds the [e] elements that end [-p * e] elements
    before the end, when the array has that many. *)
Theorem pages_below_one (s : FieldsEmbed.session Element) (e : Z) :
  as_integer (FieldsEmbed.elementsPerPage s) = Some e ->
  0 < e ->
  let xs := Base.array (FieldsEmbed.super s) in
  let n := Z.of_nat (List.length xs) in
  FieldsEmbed.elementList (FieldsEmbed.on_page (of_Z 0) s) = [] /\
  (forall p : Z, p < 0 -> (1 - p) * e <= n ->
     FieldsEmbed.elementList (FieldsEmbed.on_page (of_Z p) s) =
     take (Z.to_nat e) (drop (Z.to_nat (n - (1 - p) * e)) xs) /\
     List.length (FieldsEmbed.elementList (FieldsEmbed.on_page (of_Z p) s)) = Z.to_nat e).
Proof.
  intros He He0 xs n. split.
  - rewrite (elementList_integers (FieldsEmbed.on_page (of_Z 0) s) 0 e
               (on_page_integer s 0) He).
    cbv zeta. unfold clamp_index.
    destruct (Z.ltb_spec ((0 - 1) * e) 0); [|lia].
    destruct (Z.ltb_spec (0 * e) 0); [lia|].
    match goal with |- take ?c _ = _ => replace c with 0%nat by lia end.
    apply take_0.
  - intros p Hp Hn.
    assert (Hlist : FieldsEmbed.elementList (FieldsEmbed.on_page (of_Z p) s) =
                    take (Z.to_nat e) (drop (Z.to_nat (n - (1 - p) * e)) xs)).
    { rewrite (elementList_integers (FieldsEmbed.on_page (of_Z p) s) p e
                 (on_page_integer s p) He).
      cbv zeta. unfold clamp_index.
      destruct (Z.ltb_spec ((p - 1) * e) 0); [|nia].
      destruct (Z.ltb_spec (p * e) 0); [|nia].
      change (Base.array (FieldsEmbed.super (FieldsEmbed.on_page (of_Z p) s))) with xs.
      fold n. f_equal; [|f_equal]; nia. }
    split; [exact Hlist|].
    rewrite Hlist, length_take, length_drop. fold n. nia.
Qed.

(** X4. With one element per page [FieldsEmbed] pages as [Embeds] does:
    [build] counts as many pages as there are elements, and on an integer
    page from 1 on the element list is the current embed of [Embeds], or
    empty where that is undefined. *)
Theorem one_per_page (s : FieldsEmbed.session Element) (p : Z) :
  as_integer (FieldsEmbed.elementsPerPage s) = Some 1 ->
  as_integer (Base.page (FieldsEmbed.super s)) = Some p ->
  1 <= p ->
  FieldsEmbed.count_pages s = Embeds.count_pages (FieldsEmbed.super s) /\
  FieldsEmbed.elementList s = option_list (Embeds.currentEmbed (FieldsEmbed.super s)).
Proof.
  intros He Hp Hp1. split.
  - rewrite (count_pages_integer s 1 He) by lia.
    unfold Embeds.count_pages, of_nat. f_equal.
    rewrite Z.div_1_r. lia.
  - rewrite (elementList_chunk s p 1 Hp He Hp1) by lia.
    unfold Embeds.currentEmbed.
    rewrite (index_integer _ _ (p - 1) (pred_integer _ _ Hp)) by lia.
    rewrite Z.mul_1_r. apply take_one_drop.
Qed.

End Paging.

Section EmbedsSetters.
Context {E : Type} `{Host} `{!Embeds.MessageEmbedLib E} `{!Transport (option E)}.
Context `{!Base.Verify E (option E)} `{!Base.Navigation (Embeds.world E)}.

Lemma succ_integer (a : number) (z : Z) :
  as_integer (num_sub a (of_Z 1)) = Some z -> as_integer a = Some (z + 1).
Proof.
  destruct a as [|neg| |q]; try discriminate.
  - intros Hz. apply as_integer_Fin in Hz.
    assert (Hz' : z = - 1).
    { unfold Qeq, inject_Z in Hz. simpl in Hz. lia. }
    rewrite Hz'. reflexivity.
  - change (num_sub (Fin q) (of_Z 1)) with (Fin (q + - inject_Z 1)). intros Hz.
    apply as_integer_Fin in Hz. apply as_integer_of_Qeq.
    rewrite inject_Z_plus, <- Hz. ring.
Qed.

(** X5. [currentEmbed] of [Embeds] is defined exactly when [page] is an
    integer from 1 to the length of the array, and is then the embed at index
    [page - 1]; for any other page (zero, negative, past the end, fractional,
    NaN or infinite) it is [undefined]. *)
Theorem currentEmbed_defined (s : Base.session E) :
  (is_Some (Embeds.currentEmbed s) <->
   exists p : Z, as_integer (Base.page s) = Some p /\
                 1 <= p <= Z.of_nat (List.length (Base.array s))) /\
  (forall p : Z, as_integer (Base.page s) = Some p -> 1 <= p ->
     Embeds.currentEmbed s = Base.array s !! Z.to_nat (p - 1)).
Proof.
  assert (Hat : forall p : Z, as_integer (Base.page s) = Some p -> 1 <= p ->
                Embeds.currentEmbed s = Base.array s !! Z.to_nat (p - 1)).
  { intros p Hp Hp1. unfold Embeds.currentEmbed.
    apply index_integer; [apply pred_integer, Hp | lia]. }
  split; [|exact Hat]. split.
  - intros [el Hel]. unfold Embeds.currentEmbed, index in Hel.
    destruct (as_integer (num_sub (Base.page s) (of_Z 1))) as [z|] eqn:Hz; [|discriminate].
    destruct (Z.ltb_spec z 0); [discriminate|].
    exists (z + 1). split; [apply succ_integer, Hz|].
    apply lookup_lt_Some in Hel. lia.
  - intros (p & Hp & Hrange). rewrite (Hat p Hp) by lia.
    apply lookup_lt_is_Some. lia.
Qed.

(** X6. Every setter of [Embeds] that loops over the embeds calls the
    method on the embeds of the array in order, each call working on what
    the calls before it left (an embed that sits at two indices is called
    twice), and stops at the first call that throws: the setter throws that
    error, the calls made keep their effect, and no embed further on is
    called.  The session, with its array, [page], [pages], message and
    calls, is left alone.  This holds for [addBlankField], [setTimestamp]
    and [spliceField], which loop whatever their arguments, and for each of
    the guarded setters once its argument is given. *)
Theorem setters_stop_at_throw (st : Embeds.state E) :
  (forall inline : option bool,
     Embeds.visited (Embeds.el_addBlankField (default false inline)) st
       (Embeds.addBlankField inline st)) /\
  (forall timestamp : plain,
     Embeds.visited (Embeds.el_setTimestamp timestamp) st (Embeds.setTimestamp timestamp st)) /\
  (forall index deleteCount name value inline : plain,
     Embeds.visited (Embeds.el_spliceField index deleteCount name value inline) st
       (Embeds.spliceField index deleteCount name value inline st)) /\
  (forall c : Embeds.styling,
     Embeds.argument_given c = true ->
     Embeds.visited (Embeds.on_embed c) st (Embeds.styled c st)).
Proof.
  split; [|split; [|split]].
  - intros inline. apply EmbedsFacts.for_array_visited.
  - intros timestamp. apply EmbedsFacts.for_array_visited.
  - intros. apply EmbedsFacts.for_array_visited.
  - intros c Hc. rewrite EmbedsFacts.styled_eq, Hc. apply EmbedsFacts.for_array_visited.
Qed.

(** X7. After [setArray] has stored a non-empty array of embeds, [build]
    counts one page per embed, and every page from 1 to that count has its
    current embed, the one at that place in the array given. *)
Theorem setArray_then_pages (w : Embeds.world E) (els : list E) :
  els <> [] ->
  let w1 := snd (Embeds.setArray (Embeds.AnArray (map inl els)) w) in
  Base.pages (Base.self (Embeds.counted w1)) = of_nat (List.length els) /\
  forall p : nat, (1 <= p <= List.length els)%nat ->
    Embeds.currentEmbed (Base.with_page (of_nat p) (Base.self (Embeds.counted w1))) =
      els !! (p - 1)%nat /\
    is_Some (els !! (p - 1)%nat).
Proof.
  intros Hne w1.
  assert (Hw1 : Base.array (Base.self w1) = els).
  { unfold w1. destruct els as [|el rest]; [contradiction|].
    change (map inl (el :: rest)) with (@inl E plain el :: map inl rest).
    unfold Embeds.setArray, bind, lift.
    change (@inl E plain el :: map inl rest) with (map (@inl E plain) (el :: rest)).
    rewrite EmbedsFacts.check_items_embeds. reflexivity. }
  split.
  - simpl. unfold Embeds.count_pages. rewrite Hw1. reflexivity.
  - intros p Hp. split.
    + unfold Embeds.currentEmbed. simpl Base.page. simpl Base.array.
      rewrite (index_integer _ _ (Z.of_nat p - 1)
                 (pred_integer _ _ (as_integer_of_Z (Z.of_nat p)))) by lia.
      rewrite Hw1. f_equal. lia.
    + apply lookup_lt_is_Some. lia.
Qed.

(** X8. The order of [build] in [Embeds].  When [_verify] throws, [build]
    throws the same error and does nothing after it: no [start], no edit.
    When [_verify] returns, [start] is emitted before the page is rendered:
    without a message in [clientAssets] the render then throws, with [start]
    already emitted; with a message the next call is the edit of that
    message. *)
Theorem embeds_build_order (w : Embeds.world E) :
  let verified := Base._verify (Embeds.counted w) in
  let w2 := snd verified in
  (forall e, fst verified = Throw e -> Embeds.build w = (Throw e, w2)) /\
  (fst verified = Return tt ->
   Base.message (Base.self w2) = None ->
   Embeds.build w =
   (Throw (TypeError "Cannot read property 'edit' of undefined"),
    Embeds.with_calls (Base.calls w2 ++ [Emitted "start"]) w2)) /\
  (fst verified = Return tt ->
   forall m : nat, Base.message (Base.self w2) = Some m ->
   exists w3 : Embeds.world E,
     Base.calls w3 =
       Base.calls w2 ++ [Emitted "start";
                         Edited m (Embeds.indicator (Base.self w2))
                                  (Embeds.currentEmbed (Base.self w2))] /\
     Base.self w3 = Base.self w2 /\
     (Embeds.build w = Base.super_loadList true w3 \/
      exists err, Embeds.build w = (Throw err, w3))).
Proof.
  intros verified w2.
  rewrite (EmbedsFacts.embeds_build_steps w). fold verified. fold w2.
  split; [|split].
  - intros e ->. reflexivity.
  - intros -> Hnone. rewrite EmbedsFacts.embeds_loadList_eq.
    unfold Embeds.prepared. fold verified. fold w2. simpl. rewrite Hnone. reflexivity.
  - intros -> m Hm. rewrite EmbedsFacts.embeds_loadList_eq.
    unfold Embeds.prepared. fold verified. fold w2. simpl. rewrite Hm.
    eexists. split; [|split].
    3: { destruct (edit_answer _ _ _ _) as [[]|err].
         - left. reflexivity.
         - right. exists err. reflexivity. }
    + simpl. rewrite <- app_assoc. reflexivity.
    + reflexivity.
Qed.

End EmbedsSetters.

Section FieldsRender.
Context {Element : Type} `{Host} `{!FieldsEmbed.RichEmbedLib Element}.
Context `{!Transport (FieldsEmbed.drawn Element)}.
Context `{!Base.Verify Element (FieldsEmbed.drawn Element)}.
Context `{!Base.Navigation (FieldsEmbed.world Element)}.

Implicit Types (w : FieldsEmbed.world Element) (fs acc : list (FieldsEmbed.Field Element)).

Lemma field_eta (f : FieldsEmbed.Field Element) :
  FieldsEmbed.mkField (FieldsEmbed.name f) (FieldsEmbed.value f) (FieldsEmbed.inline f) = f.
Proof. destruct f; reflexivity. Qed.

(** The loop of [build] keeps the formatted fields and the number of
    fields. *)
Lemma rebuild_shape fs acc :
  fst (FieldsEmbed.rebuild fs acc) = Return tt ->
  List.filter FieldsEmbed.has_function (snd (FieldsEmbed.rebuild fs acc)) =
    List.filter FieldsEmbed.has_function acc ++ List.filter FieldsEmbed.has_function fs /\
  List.length (snd (FieldsEmbed.rebuild fs acc)) = (List.length acc + List.length fs)%nat.
Proof.
  revert acc. induction fs as [|f rest IH]; intros acc Hok; simpl in *.
  - rewrite app_nil_r, Nat.add_0_r. split; reflexivity.
  - destruct (FieldsEmbed.has_function f) eqn:Hf.
    + destruct (IH _ Hok) as [Hfilter Hlen].
      rewrite Hfilter, Hlen, field_eta, List.filter_app, length_app. simpl.
      rewrite Hf, <- app_assoc. split; [reflexivity | lia].
    + destruct (FieldsEmbed.addField _ _ _ acc) as [acc'|err] eqn:Hadd; [|discriminate].
      destruct (IH _ Hok) as [Hfilter Hlen].
      apply FieldsEmbed.addField_appends in Hadd as (f' & -> & Hf').
      change (FieldsEmbed.has_function f' = false) in Hf'.
      rewrite Hfilter, Hlen, List.filter_app, length_app. simpl.
      rewrite Hf', app_nil_r.
      split; [reflexivity | lia].
Qed.

Lemma add_all_length (g : FieldsEmbed.Field Element -> JS.value (Element -> plain)) fs acc :
  fst (FieldsEmbed.add_all g fs acc) = Return tt ->
  List.length (snd (FieldsEmbed.add_all g fs acc)) = (List.length acc + List.length fs)%nat.
Proof.
  revert acc. induction fs as [|f rest IH]; intros acc Hok; simpl in *.
  - lia.
  - destruct (FieldsEmbed.addField _ _ _ acc) as [acc'|err] eqn:Hadd; [|discriminate].
    rewrite (IH _ Hok).
    apply FieldsEmbed.addField_appends in Hadd as (f' & -> & _).
    rewrite length_app. simpl. lia.
Qed.

Lemma add_all_ext (g g' : FieldsEmbed.Field Element -> JS.value (Element -> plain)) fs acc :
  (forall f, g f = g' f) ->
  FieldsEmbed.add_all g fs acc = FieldsEmbed.add_all g' fs acc.
Proof.
  intros Hg. revert acc. induction fs as [|f rest IH]; intros acc; simpl; [reflexivity|].
  rewrite Hg. destruct (FieldsEmbed.addField _ _ _ acc); [apply IH | reflexivity].
Qed.

Lemma verified_template w :
  FieldsEmbed.template (snd (FieldsEmbed.inherited Base._verify (FieldsEmbed.counted w))) =
  FieldsEmbed.template w.
Proof.
  unfold FieldsEmbed.template.
  destruct (FieldsEmbedFacts.inherited_frame Base._verify (FieldsEmbed.counted w))
    as (-> & -> & _).
  reflexivity.
Qed.

(** X9. When the template has a formatted field, [_verify] returns and no
    [addField] refuses a field, [build] of [FieldsEmbed] goes on to
    [_loadList] with the template rebuilt in a new array: the formatted
    fields are those it had, in the same order, and the number of fields is
    the same; the array it had is not written to.  [start] is emitted just
    before, and only if somebody listens. *)
Theorem build_keeps_formatted_fields w :
  let verified := FieldsEmbed.inherited Base._verify (FieldsEmbed.counted w) in
  fst verified = Return tt ->
  fst (FieldsEmbed.rebuild (FieldsEmbed.template w) []) = Return tt ->
  List.filter FieldsEmbed.has_function (FieldsEmbed.template w) <> [] ->
  FieldsEmbed.build w = FieldsEmbed._loadList true (FieldsEmbed.prepared w) /\
  List.filter FieldsEmbed.has_function (FieldsEmbed.template (FieldsEmbed.prepared w)) =
    List.filter FieldsEmbed.has_function (FieldsEmbed.template w) /\
  List.length (FieldsEmbed.template (FieldsEmbed.prepared w)) =
    List.length (FieldsEmbed.template w) /\
  (FieldsEmbed.wf w ->
   FieldsEmbed.deref (FieldsEmbed.heap (FieldsEmbed.prepared w))
     (FieldsEmbed.fields (FieldsEmbed.embed (FieldsEmbed.this w))) = FieldsEmbed.template w) /\
  FieldsEmbed.calls (FieldsEmbed.prepared w) =
    FieldsEmbed.calls (snd verified) ++
    (if Nat.eqb (Base.startListeners (FieldsEmbed.super (FieldsEmbed.this (snd verified)))) 0
     then [] else [Emitted "start"]).
Proof.
  intros verified Hver Hre Hsome.
  pose proof (verified_template w) as Htpl. fold verified in Htpl.
  unfold FieldsEmbed.template in Htpl.
  destruct (FieldsEmbedFacts.inherited_frame Base._verify (FieldsEmbed.counted w))
    as (Hheap & Hembed & _).
  fold verified in Hheap, Hembed. simpl in Hheap, Hembed.
  destruct (rebuild_shape _ _ Hre) as [Hfilter Hlen]. simpl in Hfilter, Hlen.
  assert (Hnew : FieldsEmbed.template (FieldsEmbed.prepared w) =
                 snd (FieldsEmbed.rebuild (FieldsEmbed.template w) [])).
  { unfold FieldsEmbed.prepared. fold verified. rewrite Htpl.
    unfold FieldsEmbed.template at 1.
    destruct (Nat.eqb _ 0); simpl; apply FieldsEmbedFacts.deref_app_new. }
  split; [|split; [|split; [|split]]].
  - rewrite (FieldsEmbedFacts.build_steps w). fold verified. rewrite Hver, Htpl.
    fold (FieldsEmbed.template w). rewrite Hre, Hfilter.
    destruct (List.filter FieldsEmbed.has_function (FieldsEmbed.template w));
      [contradiction | reflexivity].
  - rewrite Hnew. exact Hfilter.
  - rewrite Hnew. exact Hlen.
  - intros Hwf. unfold FieldsEmbed.wf in Hwf.
    unfold FieldsEmbed.prepared. fold verified.
    destruct (Nat.eqb _ 0); simpl; rewrite Hheap;
      apply FieldsEmbedFacts.deref_app_l; exact Hwf.
  - unfold FieldsEmbed.prepared. fold verified.
    destruct (Nat.eqb _ 0); simpl; [rewrite app_nil_r|]; reflexivity.
Qed.

(** X10. The embed that [_drawList] returns has one field for each field
    of the template, none of them holding a function, and the title,
    description, URL and colour of the template. *)
Theorem drawn_embed_shape w (e : FieldsEmbed.RichEmbed) :
  FieldsEmbed.wf w ->
  fst (FieldsEmbed._drawList w) = Return e ->
  let d := FieldsEmbed.draw (FieldsEmbed.heap (snd (FieldsEmbed._drawList w))) e in
  List.length (FieldsEmbed.drawn_fields d) = List.length (FieldsEmbed.template w) /\
  Forall (fun f => FieldsEmbed.has_function f = false) (FieldsEmbed.drawn_fields d) /\
  FieldsEmbed.drawn_title d = FieldsEmbed.title (FieldsEmbed.embed (FieldsEmbed.this w)) /\
  FieldsEmbed.drawn_description d =
    FieldsEmbed.description (FieldsEmbed.embed (FieldsEmbed.this w)) /\
  FieldsEmbed.drawn_url d = FieldsEmbed.url (FieldsEmbed.embed (FieldsEmbed.this w)) /\
  FieldsEmbed.drawn_color d = FieldsEmbed.color (FieldsEmbed.embed (FieldsEmbed.this w)).
Proof.
  intros Hwf Hdraw d. unfold d.
  rewrite (FieldsEmbedFacts._drawList_drawn w e Hwf Hdraw). simpl.
  assert (Hok : fst (FieldsEmbed.drawing w) = Return tt).
  { rewrite (FieldsEmbedFacts._drawList_eq w Hwf) in Hdraw. cbv [fst] in Hdraw.
    destruct (FieldsEmbed.drawing w) as [[[]|err] filled]; [reflexivity | discriminate]. }
  split; [|split; [|repeat split]].
  - unfold FieldsEmbed.drawing in *. rewrite (add_all_length _ _ _ Hok). reflexivity.
  - apply FieldsEmbedFacts.add_all_static. constructor.
Qed.

(** X11. When the render of [FieldsEmbed] fails.  If drawing the embed
    throws, [_loadList] throws the same error and has called nobody, and the
    session is as it was.  If the send is rejected, [_loadList] throws that
    error, the inherited part does not run and [clientAssets] still holds no
    message. *)
Theorem render_failures (callNavigation : bool) w :
  FieldsEmbed.wf w ->
  (forall err, fst (FieldsEmbed._drawList w) = Throw err ->
     fst (FieldsEmbed._loadList callNavigation w) = Throw err /\
     FieldsEmbed.calls (snd (FieldsEmbed._loadList callNavigation w)) = FieldsEmbed.calls w /\
     FieldsEmbed.this (snd (FieldsEmbed._loadList callNavigation w)) = FieldsEmbed.this w) /\
  (forall (e : FieldsEmbed.RichEmbed) err,
     fst (FieldsEmbed._drawList w) = Return e ->
     Base.message (FieldsEmbed.super (FieldsEmbed.this w)) = None ->
     send_answer (FieldsEmbed.calls w) (FieldsEmbed.indicator (FieldsEmbed.this w))
       (FieldsEmbed.draw (FieldsEmbed.heap (snd (FieldsEmbed._drawList w))) e) = Throw err ->
     FieldsEmbed._loadList callNavigation w = (Throw err, FieldsEmbed.rendered w e) /\
     Base.message (FieldsEmbed.super (FieldsEmbed.this (FieldsEmbed.rendered w e))) = None).
Proof.
  intros Hwf.
  destruct (FieldsEmbedFacts._drawList_frame w Hwf) as (Hthis & Hcalls & _ & _).
  split.
  - intros err Hdraw. rewrite (FieldsEmbedFacts.fields_loadList_eq callNavigation w Hwf), Hdraw.
    cbv [fst snd]. repeat split; assumption.
  - intros e err Hdraw Hnone Hsend.
    rewrite (FieldsEmbedFacts.fields_loadList_eq callNavigation w Hwf), Hdraw.
    unfold FieldsEmbed.answered, FieldsEmbed.rendered. rewrite Hnone, Hsend.
    split; [reflexivity|]. simpl. rewrite Hthis. exact Hnone.
Qed.

(** The world that [_loadList] hands on once it has sent a message: the
    message is kept, and the embed drawn from there is equal to the one that
    was sent. *)
Lemma redraw_after_send w (e : FieldsEmbed.RichEmbed) (m : nat) :
  FieldsEmbed.wf w ->
  fst (FieldsEmbed._drawList w) = Return e ->
  Base.message (FieldsEmbed.super (FieldsEmbed.this w)) = None ->
  let w2 := FieldsEmbed.remembered (Some m) (FieldsEmbed.rendered w e) in
  FieldsEmbed.wf w2 /\
  Base.message (FieldsEmbed.super (FieldsEmbed.this w2)) = Some m /\
  exists e2 : FieldsEmbed.RichEmbed,
    fst (FieldsEmbed._drawList w2) = Return e2 /\
    FieldsEmbed.draw (FieldsEmbed.heap (snd (FieldsEmbed._drawList w2))) e2 =
      FieldsEmbed.draw (FieldsEmbed.heap (snd (FieldsEmbed._drawList w))) e /\
    FieldsEmbed.calls (FieldsEmbed.rendered w2 e2) =
      FieldsEmbed.calls w2 ++
      [Edited m (FieldsEmbed.indicator (FieldsEmbed.this w))
         (FieldsEmbed.draw (FieldsEmbed.heap (snd (FieldsEmbed._drawList w))) e)].
Proof.
  intros Hwf Hdraw Hnone w2.
  destruct (FieldsEmbedFacts._drawList_frame w Hwf) as (Hthis & Hcalls & Hheap & Hwf1).
  assert (Hw2this : FieldsEmbed.this w2 =
    FieldsEmbed.with_super (Base.with_message (Some m) (FieldsEmbed.super (FieldsEmbed.this w)))
      (FieldsEmbed.this w)).
  { unfold w2, FieldsEmbed.remembered, FieldsEmbed.rendered. rewrite Hnone. simpl.
    rewrite Hthis. reflexivity. }
  assert (Hw2heap : FieldsEmbed.heap w2 = FieldsEmbed.heap (snd (FieldsEmbed._drawList w))).
  { unfold w2, FieldsEmbed.remembered, FieldsEmbed.rendered. rewrite Hnone. reflexivity. }
  assert (Hwf2 : FieldsEmbed.wf w2).
  { unfold FieldsEmbed.wf in *. rewrite Hw2this, Hw2heap. simpl.
    rewrite Hthis in Hwf1. exact Hwf1. }
  assert (Htemplate : FieldsEmbed.template w2 = FieldsEmbed.template w).
  { unfold FieldsEmbed.template. rewrite Hw2this, Hw2heap. simpl.
    unfold FieldsEmbed.deref. rewrite Hheap by exact Hwf. reflexivity. }
  assert (Hdrawing : FieldsEmbed.drawing w2 = FieldsEmbed.drawing w).
  { unfold FieldsEmbed.drawing. fold (FieldsEmbed.template w2). fold (FieldsEmbed.template w).
    rewrite Htemplate. apply add_all_ext.
    intros f. rewrite Hw2this. reflexivity. }
  split; [exact Hwf2|]. split; [rewrite Hw2this; reflexivity|].
  assert (Hok : fst (FieldsEmbed.drawing w) = Return tt).
  { rewrite (FieldsEmbedFacts._drawList_eq w Hwf) in Hdraw. cbv [fst] in Hdraw.
    destruct (FieldsEmbed.drawing w) as [[[]|err] filled]; [reflexivity | discriminate]. }
  assert (Hdraw2 : exists e2, fst (FieldsEmbed._drawList w2) = Return e2).
  { rewrite (FieldsEmbedFacts._drawList_eq w2 Hwf2).
    rewrite Hdrawing, Hok. eexists. reflexivity. }
  destruct Hdraw2 as [e2 Hdraw2]. exists e2. split; [exact Hdraw2|].
  assert (Hsame : FieldsEmbed.draw (FieldsEmbed.heap (snd (FieldsEmbed._drawList w2))) e2 =
                  FieldsEmbed.draw (FieldsEmbed.heap (snd (FieldsEmbed._drawList w))) e).
  { rewrite (FieldsEmbedFacts._drawList_drawn w2 e2 Hwf2 Hdraw2).
    rewrite (FieldsEmbedFacts._drawList_drawn w e Hwf Hdraw).
    rewrite Hdrawing, Hw2this. reflexivity. }
  split; [exact Hsame|].
  assert (Hrthis : FieldsEmbed.this (FieldsEmbed.rendered w e) = FieldsEmbed.this w).
  { unfold FieldsEmbed.rendered. rewrite Hnone. simpl. exact Hthis. }
  unfold FieldsEmbed.rendered at 1. rewrite Hw2this at 1. simpl Base.message.
  simpl. rewrite Hsame, Hrthis. reflexivity.
Qed.

(** X12. Once [_loadList] of [FieldsEmbed] has sent a message, the next
    render edits that message.  Let a first [_loadList], from a session
    without a message, get as far as handing over: it has sent the drawn
    embed and kept the message that resolved.  A second [_loadList] from
    the world it left makes one call more, an edit of that message with an
    equal embed and the same content; it does not send again. *)
Theorem rerender_edits_sent_message (callNavigation again : bool) w :
  FieldsEmbed.wf w ->
  Base.message (FieldsEmbed.super (FieldsEmbed.this w)) = None ->
  let first := FieldsEmbed._loadList (H2 := Base.handover _) callNavigation w in
  fst first = Return tt ->
  let second := FieldsEmbed._loadList (H2 := Base.handover _) again (snd first) in
  let content := shouldIndicate
    (Base.pageIndicator (FieldsEmbed.super (FieldsEmbed.this w)))
    (Base.page (FieldsEmbed.super (FieldsEmbed.this w)))
    (Base.pages (FieldsEmbed.super (FieldsEmbed.this w))) in
  exists (d : FieldsEmbed.drawn Element) (m : nat),
    send_answer (FieldsEmbed.calls w) content d = Return m /\
    FieldsEmbed.calls (snd first) = FieldsEmbed.calls w ++ [Sent content d] /\
    Base.message (FieldsEmbed.super (FieldsEmbed.this (snd first))) = Some m /\
    FieldsEmbed.calls (snd second) =
      FieldsEmbed.calls w ++ [Sent content d; Edited m content d] /\
    fst second = edit_answer (FieldsEmbed.calls w ++ [Sent content d]) m content d /\
    Base.message (FieldsEmbed.super (FieldsEmbed.this (snd second))) = Some m.
Proof.
  intros Hwf Hnone first Hok second content.
  destruct (fst (FieldsEmbed._drawList w)) as [e|err] eqn:Hdraw.
  2: { unfold first in Hok.
       rewrite (FieldsEmbedFacts.fields_loadList_own callNavigation w Hwf), Hdraw in Hok.
       discriminate. }
  pose proof (FieldsEmbedFacts.fields_loadList_call callNavigation w e Hwf Hdraw) as Hfirst.
  cbv zeta in Hfirst. fold first in Hfirst. rewrite Hnone in Hfirst.
  change (FieldsEmbed.indicator (FieldsEmbed.this w)) with content in Hfirst.
  set (d := FieldsEmbed.draw (FieldsEmbed.heap (snd (FieldsEmbed._drawList w))) e) in *.
  destruct Hfirst as [Hcalls1 Hanswer].
  destruct (send_answer (FieldsEmbed.calls w) content d) as [m|err] eqn:Hsend.
  2: { destruct Hanswer as [Hthrow _]. rewrite Hthrow in Hok. discriminate. }
  destruct Hanswer as [_ Hmsg1].
  assert (Hw2 : snd first = FieldsEmbed.remembered (Some m) (FieldsEmbed.rendered w e)).
  { unfold first.
    rewrite (FieldsEmbedFacts.fields_loadList_own callNavigation w Hwf), Hdraw.
    unfold FieldsEmbed.answered. rewrite Hnone.
    change (FieldsEmbed.indicator (FieldsEmbed.this w)) with content. fold d.
    rewrite Hsend. reflexivity. }
  destruct (redraw_after_send w e m Hwf Hdraw Hnone) as (Hwf2 & Hmsg2 & e2 & Hdraw2 & Hsame & _).
  rewrite <- Hw2 in Hwf2, Hmsg2, Hdraw2, Hsame.
  pose proof (FieldsEmbedFacts.fields_loadList_call again (snd first) e2 Hwf2 Hdraw2) as Hsecond.
  cbv zeta in Hsecond. fold second in Hsecond. rewrite Hmsg2, Hsame in Hsecond. fold d in Hsecond.
  assert (Hcontent : FieldsEmbed.indicator (FieldsEmbed.this (snd first)) = content).
  { rewrite Hw2. unfold FieldsEmbed.remembered, FieldsEmbed.rendered. rewrite Hnone.
    cbn [FieldsEmbed.this FieldsEmbed.with_this FieldsEmbed.with_calls].
    destruct (FieldsEmbedFacts._drawList_frame w Hwf) as (Hthis & _).
    rewrite Hthis. reflexivity. }
  rewrite Hcontent, Hcalls1 in Hsecond.
  destruct Hsecond as (Hcalls2 & Hanswer2 & Hmsg3).
  exists d, m. split; [exact Hsend|]. split; [exact Hcalls1|]. split; [exact Hmsg1|].
  split; [rewrite Hcalls2, <- app_assoc; reflexivity|].
  split; [exact Hanswer2 | exact Hmsg3].
Qed.


(** X14. [formatField] takes functions only: for any other value it throws
    a [TypeError] and leaves the session as it was; for a function it puts the
    field at the end of the template, inline unless told otherwise, and
    touches neither the fields already there nor anything else. *)
Theorem formatField_appends (n : string) (v : JS.value (Element -> plain))
    (i : option bool) w :
  (is_function v = false ->
     FieldsEmbed.formatField n v i w =
     (Throw (TypeError "formatField() value parameter only takes a function."), w)) /\
  (is_function v = true -> FieldsEmbed.wf w ->
     fst (FieldsEmbed.formatField n v i w) = Return tt /\
     FieldsEmbed.template (snd (FieldsEmbed.formatField n v i w)) =
       FieldsEmbed.template w ++ [FieldsEmbed.mkField n v (default true i)] /\
     FieldsEmbed.this (snd (FieldsEmbed.formatField n v i w)) = FieldsEmbed.this w /\
     FieldsEmbed.calls (snd (FieldsEmbed.formatField n v i w)) = FieldsEmbed.calls w /\
     FieldsEmbed.wf (snd (FieldsEmbed.formatField n v i w))).
Proof.
  split.
  - intros Hv. unfold FieldsEmbed.formatField. rewrite Hv. reflexivity.
  - intros Hv Hwf. rewrite (FieldsEmbedFacts.formatField_function n v i w Hv).
    cbv [fst snd]. split; [reflexivity|]. split.
    + unfold FieldsEmbed.template. simpl.
      apply FieldsEmbedFacts.deref_insert_eq. exact Hwf.
    + split; [reflexivity|]. split; [reflexivity|].
      unfold FieldsEmbed.wf in *. simpl. rewrite length_insert. exact Hwf.
Qed.

Lemma rebuild_throws_short fs acc (e : error) :
  fst (FieldsEmbed.rebuild fs acc) = Throw e ->
  (List.length acc <= List.length (snd (FieldsEmbed.rebuild fs acc)) <
   List.length acc + List.length fs)%nat.
Proof.
  revert acc. induction fs as [|f rest IH]; intros acc Hthrow; simpl in *.
  - discriminate.
  - destruct (FieldsEmbed.has_function f).
    + specialize (IH _ Hthrow). rewrite length_app in IH. simpl in IH. lia.
    + destruct (FieldsEmbed.addField _ _ _ acc) as [acc'|err] eqn:Hadd.
      * specialize (IH _ Hthrow).
        apply FieldsEmbed.addField_appends in Hadd as (f' & -> & _).
        rewrite length_app in IH. simpl in IH. lia.
      * simpl. lia.
Qed.

(** X15. [build] of [FieldsEmbed] is not undone when it fails on a field:
    when [_verify] has returned and [addField] refuses a field of the
    template, [build] throws that error with the template already replaced
    by the fields rebuilt so far, which are fewer than it had; nothing has
    been sent or emitted. *)
Theorem build_failure_truncates_template w (e : error) :
  let verified := FieldsEmbed.inherited Base._verify (FieldsEmbed.counted w) in
  fst verified = Return tt ->
  fst (FieldsEmbed.rebuild (FieldsEmbed.template w) []) = Throw e ->
  fst (FieldsEmbed.build w) = Throw e /\
  FieldsEmbed.template (snd (FieldsEmbed.build w)) =
    snd (FieldsEmbed.rebuild (FieldsEmbed.template w) []) /\
  (List.length (FieldsEmbed.template (snd (FieldsEmbed.build w))) <
   List.length (FieldsEmbed.template w))%nat /\
  FieldsEmbed.calls (snd (FieldsEmbed.build w)) = FieldsEmbed.calls (snd verified).
Proof.
  intros verified Hver Hthrow.
  pose proof (verified_template w) as Htpl. fold verified in Htpl.
  unfold FieldsEmbed.template in Htpl.
  pose proof (rebuild_throws_short _ _ _ Hthrow) as Hshort.
  change (List.length (@nil (FieldsEmbed.Field Element))) with 0%nat in Hshort.
  rewrite (FieldsEmbedFacts.build_steps w). fold verified. rewrite Hver, Htpl.
  fold (FieldsEmbed.template w). rewrite Hthrow.
  match goal with |- context [(Throw e, ?W)] => set (w3 := W) end.
  change (fst (@Throw unit e, w3)) with (@Throw unit e).
  change (snd (@Throw unit e, w3)) with w3.
  assert (Hnew : FieldsEmbed.template w3 =
                 snd (FieldsEmbed.rebuild (FieldsEmbed.template w) [])).
  { unfold w3, FieldsEmbed.template. simpl. apply FieldsEmbedFacts.deref_app_new. }
  split; [reflexivity|]. split; [exact Hnew|]. split; [rewrite Hnew; lia | reflexivity].
Qed.

End FieldsRender.

End Behaviour.

(** ** The further properties on the sample session *)

Module BehaviourScenarios.
Import JS Render Effects JSFacts Behaviour.

#[local] Existing Instance Sample.host.
#[local] Existing Instance Sample.rich.
#[local] Existing Instance Sample.transport.
#[local] Existing Instance Sample.verify.
#[local] Existing Instance Sample.navigation.
#[local] Existing Instance Sample.message_embed.

(** Seven numbers, three per page: three pages, which together are the
    seven numbers. *)
Lemma pages_cover_array_witness :
  FieldsEmbed.count_pages (FieldsEmbed.this (Sample.fields_world (seq 0 7) (of_Z 3))) = of_nat 3 /\
  concat (map (fun p : nat => FieldsEmbed.elementList
                 (FieldsEmbed.on_page (of_nat p)
                    (FieldsEmbed.this (Sample.fields_world (seq 0 7) (of_Z 3)))))
              (seq 1 3)) = seq 0 7.
Proof.
  apply (pages_cover_array (FieldsEmbed.this (Sample.fields_world (seq 0 7) (of_Z 3))) 3).
  - reflexivity.
  - lia.
Defined.

(** Seven numbers, three per page: the last page, the third, holds one. *)
Lemma page_sizes_witness :
  Z.of_nat (List.length (FieldsEmbed.elementList (FieldsEmbed.on_page (of_Z 3)
     (FieldsEmbed.this (Sample.fields_world (seq 0 7) (of_Z 3))))))
  = 7 - (3 - 1) * 3.
Proof.
  apply (page_sizes (FieldsEmbed.this (Sample.fields_world (seq 0 7) (of_Z 3))) 3 3).
  - reflexivity.
  - lia.
  - lia.
  - reflexivity.
Defined.

(** Page -1 of 25 numbers, ten per page, holds the numbers 5 to 14. *)
Lemma pages_below_one_witness :
  FieldsEmbed.elementList (FieldsEmbed.on_page (of_Z (-1))
    (FieldsEmbed.this (Sample.fields_world (seq 0 25) (of_Z 10)))) =
  take 10 (drop 5 (seq 0 25)).
Proof.
  apply (pages_below_one (FieldsEmbed.this (Sample.fields_world (seq 0 25) (of_Z 10))) 10).
  - reflexivity.
  - lia.
  - lia.
  - simpl. lia.
Defined.

(** One number per page, page 2 of three numbers. *)
Lemma one_per_page_witness :
  FieldsEmbed.elementList
    (FieldsEmbed.this (Sample.listing [7; 8; 9]%nat (of_Z 2) (of_Z 1) None)) =
  option_list (Embeds.currentEmbed
    (FieldsEmbed.super (FieldsEmbed.this (Sample.listing [7; 8; 9]%nat (of_Z 2) (of_Z 1) None)))).
Proof.
  apply (one_per_page (FieldsEmbed.this (Sample.listing [7; 8; 9]%nat (of_Z 2) (of_Z 1) None)) 2).
  - reflexivity.
  - reflexivity.
  - lia.
Defined.

(** Page 2 of two embeds is defined. *)
Lemma currentEmbed_defined_witness :
  is_Some (Embeds.currentEmbed (Base.self
    (Sample.album [Sample.titled "one"; Sample.titled "two"] (of_Z 2) None))).
Proof.
  apply (proj1 (currentEmbed_defined (Base.self
    (Sample.album [Sample.titled "one"; Sample.titled "two"] (of_Z 2) None)))).
  exists 2. split; [reflexivity | simpl; lia].
Defined.

(** A field for three embeds of which the second is full: the first has
    the field, the second refuses it, the third is not reached. *)
Lemma setters_stop_at_throw_witness :
  Embeds.visited (Embeds.on_embed (Embeds.AddField (VString "a") (VString "b") None))
    (Sample.gallery [Sample.blank; Sample.full; Sample.blank] [0; 1; 2]%nat)
    (Throw (RangeError "MessageEmbeds may not exceed 25 fields."),
     Sample.gallery [Sample.with_field "a" "b"; Sample.full; Sample.blank] [0; 1; 2]%nat).
Proof.
  apply (setters_stop_at_throw
           (Sample.gallery [Sample.blank; Sample.full; Sample.blank] [0; 1; 2]%nat)).
  reflexivity.
Defined.

(** Two embeds set, two pages counted. *)
Lemma setArray_then_pages_witness :
  Base.pages (Base.self (Embeds.counted (snd
    (Embeds.setArray (Embeds.AnArray (map inl [Sample.blank; Sample.titled "two"]))
       (Sample.embeds_world []))))) = of_nat 2.
Proof.
  apply (setArray_then_pages (Sample.embeds_world []) [Sample.blank; Sample.titled "two"]).
  discriminate.
Defined.

(** Without a message the build of the sample album throws after [start]. *)
Lemma embeds_build_order_witness :
  Embeds.build (Sample.album [Sample.titled "one"; Sample.titled "two"] (of_Z 1) None) =
  (Throw (TypeError "Cannot read property 'edit' of undefined"),
   Embeds.with_calls
     (Base.calls (snd (Base._verify (Embeds.counted
        (Sample.album [Sample.titled "one"; Sample.titled "two"] (of_Z 1) None)))) ++
      [Emitted "start"])
     (snd (Base._verify (Embeds.counted
        (Sample.album [Sample.titled "one"; Sample.titled "two"] (of_Z 1) None))))).
Proof.
  pose proof (embeds_build_order
    (Sample.album [Sample.titled "one"; Sample.titled "two"] (of_Z 1) None))
    as (_ & Hnone & _).
  apply Hnone; reflexivity.
Defined.

(** The sample listing is built with its formatted field kept. *)
Lemma build_keeps_formatted_fields_witness :
  List.length (FieldsEmbed.template (FieldsEmbed.prepared
    (Sample.listing (seq 0 25) (of_Z 1) (of_Z 10) None))) =
  List.length (FieldsEmbed.template (Sample.listing (seq 0 25) (of_Z 1) (of_Z 10) None)).
Proof.
  pose proof (build_keeps_formatted_fields
    (Sample.listing (seq 0 25) (of_Z 1) (of_Z 10) None)) as Hbuild.
  apply Hbuild.
  - vm_compute. reflexivity.
  - vm_compute. reflexivity.
  - vm_compute. discriminate.
Defined.

(** The embed drawn for the sample listing has two fields. *)
Lemma drawn_embed_shape_witness :
  List.length (FieldsEmbed.drawn_fields (FieldsEmbed.draw
    (FieldsEmbed.heap (snd (FieldsEmbed._drawList
       (Sample.listing (seq 0 25) (of_Z 1) (of_Z 10) None))))
    (FieldsEmbed.mkEmbed (Some "Numbers") None None None 1))) =
  List.length (FieldsEmbed.template (Sample.listing (seq 0 25) (of_Z 1) (of_Z 10) None)).
Proof.
  pose proof (drawn_embed_shape (Sample.listing (seq 0 25) (of_Z 1) (of_Z 10) None)
                (FieldsEmbed.mkEmbed (Some "Numbers") None None None 1)) as Hshape.
  apply Hshape.
  - unfold FieldsEmbed.wf. simpl. lia.
  - vm_compute. reflexivity.
Defined.

(** Page 4 of three has no element: the formatted field would be empty, the
    drawing is refused and nobody is called.  And a rejected send leaves the
    sample listing without a message. *)
Lemma render_failures_witness :
  FieldsEmbed.calls (snd (FieldsEmbed._loadList true
    (Sample.listing (seq 0 25) (of_Z 4) (of_Z 10) None))) = [] /\
  Base.message (FieldsEmbed.super (FieldsEmbed.this
    (FieldsEmbed.rendered (Sample.listing (seq 0 25) (of_Z 1) (of_Z 10) None)
       (FieldsEmbed.mkEmbed (Some "Numbers") None None None 1)))) = None.
Proof.
  split.
  - pose proof (render_failures true (Sample.listing (seq 0 25) (of_Z 4) (of_Z 10) None))
      as Hfail.
    destruct Hfail as [Hdraw _].
    + unfold FieldsEmbed.wf. simpl. lia.
    + destruct (Hdraw (RangeError "RichEmbed field values may not be empty."))
        as (_ & Hcalls & _).
      * vm_compute. reflexivity.
      * exact Hcalls.
  - pose proof (render_failures (Transport0 := Sample.refusing _) true
                  (Sample.listing (seq 0 25) (of_Z 1) (of_Z 10) None)) as Hfail.
    destruct Hfail as [_ Hsend].
    + unfold FieldsEmbed.wf. simpl. lia.
    + destruct (Hsend (FieldsEmbed.mkEmbed (Some "Numbers") None None None 1)
                  (Error "Missing Permissions")) as (_ & Hnone).
      * vm_compute. reflexivity.
      * reflexivity.
      * reflexivity.
      * exact Hnone.
Defined.

(** The message sent for the sample listing is the one edited next. *)
Lemma rerender_edits_sent_message_witness :
  exists d : FieldsEmbed.drawn nat,
    FieldsEmbed.calls (snd (FieldsEmbed._loadList (H2 := Base.handover _) false
      (snd (FieldsEmbed._loadList (H2 := Base.handover _) true
         (Sample.listing (seq 0 25) (of_Z 1) (of_Z 10) None))))) =
    [Sent (Some "Page 1 of 3") d; Edited 0%nat (Some "Page 1 of 3") d].
Proof.
  destruct (rerender_edits_sent_message true false
              (Sample.listing (seq 0 25) (of_Z 1) (of_Z 10) None))
    as (d & m & Hsend & _ & _ & Hcalls & _).
  - unfold FieldsEmbed.wf. simpl. lia.
  - reflexivity.
  - vm_compute. reflexivity.
  - exists d. injection Hsend as <-. exact Hcalls.
Defined.


(** A text is refused as a formatted field; a function is appended, inline. *)
Lemma formatField_appends_witness :
  FieldsEmbed.formatField "Name" (VString "text") None
    (Sample.fields_world [1; 2; 3]%nat (of_Z 10)) =
  (Throw (TypeError "formatField() value parameter only takes a function."),
   Sample.fields_world [1; 2; 3]%nat (of_Z 10)) /\
  FieldsEmbed.template (snd (FieldsEmbed.formatField "Name"
     (VFunction (fun n : nat => VNumber (of_nat n))) None
     (Sample.fields_world [1; 2; 3]%nat (of_Z 10)))) =
  FieldsEmbed.template (Sample.fields_world [1; 2; 3]%nat (of_Z 10)) ++
  [FieldsEmbed.mkField "Name" (VFunction (fun n : nat => VNumber (of_nat n))) true].
Proof.
  split.
  - apply (formatField_appends "Name" (VString "text") None
             (Sample.fields_world [1; 2; 3]%nat (of_Z 10))).
    reflexivity.
  - apply (formatField_appends "Name" (VFunction (fun n : nat => VNumber (of_nat n))) None
             (Sample.fields_world [1; 2; 3]%nat (of_Z 10))).
    + reflexivity.
    + unfold FieldsEmbed.wf. simpl. lia.
Defined.

(** The field with an empty text stops the build: the template is left with
    the one field before it. *)
Lemma build_failure_truncates_template_witness :
  fst (FieldsEmbed.build (Sample.flawed [1; 2; 3]%nat)) =
    Throw (RangeError "RichEmbed field values may not be empty.") /\
  (List.length (FieldsEmbed.template (snd (FieldsEmbed.build (Sample.flawed [1; 2; 3]%nat)))) <
   List.length (FieldsEmbed.template (Sample.flawed [1; 2; 3]%nat)))%nat.
Proof.
  pose proof (build_failure_truncates_template (Sample.flawed [1; 2; 3]%nat)
                (RangeError "RichEmbed field values may not be empty.")) as Hfail.
  destruct Hfail as (Hthrow & _ & Hshort & _).
  - vm_compute. reflexivity.
  - vm_compute. reflexivity.
  - split; [exact Hthrow | exact Hshort].
Defined.

Example flawed_template_after_build :
  map FieldsEmbed.name
    (FieldsEmbed.template (snd (FieldsEmbed.build (Sample.flawed [1; 2; 3]%nat)))) =
  ["Number"].
Proof. vm_compute. reflexivity. Qed.

End BehaviourScenarios.
